(** * ADHub setup wizard: store, step components and their guards

    A shallow embedding of the setup wizard of ADHub:
    - [frontend/src/types/setup.ts]   the wire types,
    - [frontend/src/api/setup.ts]     the REST client,
    - [frontend/src/stores/setup.ts]  the Pinia store,
    - the step components PrerequisitesStep, DomainConfigStep, ProvisionStep
      and VerificationStep,
    - the wizard's container SetupWizard with ExistingDomainModal,
    - the authentication store [stores/auth.ts], the navigation guard of
      the router and the initials of DashboardLayout.

    The store and the components are asynchronous JavaScript that mutates
    shared reactive state, calls the backend and may throw.  They are
    modelled in a state-and-exception monad over a world made of the
    component's local refs, the store's refs and the log of requests sent
    to the backend.  The backend's answers are a parameter of every
    definition that calls the API.

    A handler runs to completion before the next event is handled; what
    the flags [checking], [running] and [provisioning] guard while a call
    is pending is covered by stating the properties for every value of
    the flags.  Calls of [console.log] are left out. *)

From Stdlib Require Import ZArith String Ascii List Bool Lia.
From stdpp Require Import base option strings gmap list.

Local Open Scope string_scope.
Local Open Scope Z_scope.

(** ** Wire types ([types/setup.ts]) *)

Inductive DNSBackendType := SAMBA_INTERNAL | BIND9_DLZ | NONE.

Inductive DomainFunctionLevel := LEVEL_2000 | LEVEL_2003 | LEVEL_2008 | LEVEL_2008_R2.

Record DomainConfig := mkDomainConfig {
  realm : string;
  domain : string;
  domain_name : string;
  admin_password : string;
  dns_backend : DNSBackendType;
  dns_forwarder : string;
  server_role : string;
  host_ip : option string;
  function_level : DomainFunctionLevel
}.

Inductive CheckStatus := check_passed | check_failed | check_warning.

Record PrerequisiteCheck := mkPrerequisiteCheck {
  check_name : string;
  check_status : CheckStatus;
  check_message : string;
  check_details : option string
}.

Record PrerequisitesResponse := mkPrerequisitesResponse {
  all_passed : bool;
  checks : list PrerequisiteCheck
}.

Inductive ProvisionStatus := NOT_STARTED | IN_PROGRESS | COMPLETED | FAILED.

Record ProvisionResponse := mkProvisionResponse {
  prov_status : ProvisionStatus;
  prov_message : string;
  task_id : option string;
  output : option string;
  prov_error : option string
}.

Inductive TestStatus := test_passed | test_failed | test_skipped | test_running.

Inductive TestCategory :=
  cat_dns | cat_kerberos | cat_ldap | cat_services | cat_auth | cat_prerequisites.

Record VerificationTest := mkVerificationTest {
  test_name : string;
  category : TestCategory;
  status : TestStatus;
  message : string;
  details : option string;
  duration_ms : option Z
}.

Inductive OverallStatus := overall_passed | overall_failed | overall_partial.

Record VerificationResponse := mkVerificationResponse {
  overall_status : OverallStatus;
  total_tests : Z;
  passed : Z;
  failed : Z;
  skipped : Z;
  tests : list VerificationTest;
  summary : string
}.

Record SetupStatusResponse := mkSetupStatusResponse {
  is_provisioned : bool;
  domain_info : option (gmap string string);
  last_provision_date : option string
}.

(** [SetupStep] is a numeric enum; the store keeps it in a plain number. *)
Definition WELCOME : Z := 0.
Definition PREREQUISITES : Z := 1.
Definition DOMAIN_CONFIG : Z := 2.
Definition DNS_CONFIG : Z := 3.
Definition REVIEW : Z := 4.
Definition PROVISION : Z := 5.
Definition VERIFICATION : Z := 6.
Definition COMPLETE : Z := 7.

#[global] Instance CheckStatus_eq_dec : EqDecision CheckStatus.
Proof. solve_decision. Defined.

#[global] Instance TestStatus_eq_dec : EqDecision TestStatus.
Proof. solve_decision. Defined.

#[global] Instance ProvisionStatus_eq_dec : EqDecision ProvisionStatus.
Proof. solve_decision. Defined.

#[global] Instance OverallStatus_eq_dec : EqDecision OverallStatus.
Proof. solve_decision. Defined.

(** ** JavaScript strings

    Strings are byte strings; [toUpperCase] and [toLowerCase] map the ASCII
    letters and leave every other byte as it is. *)

Definition upper_ascii (c : ascii) : ascii :=
  let n := nat_of_ascii c in
  if (Nat.leb 97 n && Nat.leb n 122)%bool then ascii_of_nat (n - 32) else c.

Definition lower_ascii (c : ascii) : ascii :=
  let n := nat_of_ascii c in
  if (Nat.leb 65 n && Nat.leb n 90)%bool then ascii_of_nat (n + 32) else c.

Fixpoint map_string (f : ascii -> ascii) (s : string) : string :=
  match s with
  | EmptyString => EmptyString
  | String c r => String (f c) (map_string f r)
  end.

Definition toUpperCase : string -> string := map_string upper_ascii.
Definition toLowerCase : string -> string := map_string lower_ascii.

(** [s.split(sep)] for a one-character separator; the result is never
    empty and [''.split('.')] is [['']]. *)
Fixpoint split (sep : ascii) (s : string) : list string :=
  match s with
  | EmptyString => [EmptyString]
  | String c r =>
      if Ascii.eqb c sep then EmptyString :: split sep r
      else match split sep r with
           | h :: t => String c h :: t
           | [] => [String c EmptyString]
           end
  end.

(** [s.length] *)
Definition len (s : string) : Z := Z.of_nat (String.length s).

(** Truthiness of a string: the empty string is falsy. *)
Definition truthy (s : string) : bool := negb (String.eqb s "").

(** ** Thrown values

    A rejected promise carries either an [Error] object or any other
    value; the store reads [e.message] only in the first case. *)

Inductive Thrown := ErrorObject (msg : string) | OtherValue (shown : string).

(** [e instanceof Error ? e.message : fallback] *)
Definition message_or (e : Thrown) (fallback : string) : string :=
  match e with
  | ErrorObject m => m
  | OtherValue _ => fallback
  end.

(** ** Requests and the backend ([api/setup.ts]) *)

Inductive Request :=
| GET_status
| POST_check_prerequisites
| POST_validate_config (c : DomainConfig)
| POST_provision (c : DomainConfig)
| POST_verify (c : DomainConfig)
| GET_domain_info
| POST_reset.

(** The answer of each endpoint may depend on every request sent before. *)
Record Backend := mkBackend {
  status_reply : list Request -> Thrown + SetupStatusResponse;
  prerequisites_reply : list Request -> Thrown + PrerequisitesResponse;
  validate_reply : list Request -> DomainConfig -> Thrown + string;
  provision_reply : list Request -> DomainConfig -> Thrown + ProvisionResponse;
  verify_reply : list Request -> DomainConfig -> Thrown + VerificationResponse;
  domain_info_reply : list Request -> Thrown + gmap string string;
  reset_reply : list Request -> Thrown + (bool * string)
}.

(** ** The store's state ([stores/setup.ts], lines 19-37) *)

Record Store := mkStore {
  currentStep : Z;
  setupStatus : option SetupStatusResponse;
  prerequisites : option PrerequisitesResponse;
  verificationResults : option VerificationResponse;
  provisionResponse : option ProvisionResponse;
  loading : bool;
  error : option string;
  domainConfig : DomainConfig
}.

Definition initial_domainConfig : DomainConfig :=
  {| realm := "EXAMPLE.COM";
     domain := "EXAMPLE";
     domain_name := "example.com";
     admin_password := "";
     dns_backend := SAMBA_INTERNAL;
     dns_forwarder := "8.8.8.8";
     server_role := "dc";
     host_ip := None;
     function_level := LEVEL_2008 |}.

Definition initial_store : Store :=
  {| currentStep := 0;
     setupStatus := None;
     prerequisites := None;
     verificationResults := None;
     provisionResponse := None;
     loading := false;
     error := None;
     domainConfig := initial_domainConfig |}.

Definition with_currentStep (v : Z) (s : Store) : Store :=
  mkStore v (setupStatus s) (prerequisites s) (verificationResults s)
    (provisionResponse s) (loading s) (error s) (domainConfig s).

Definition with_setupStatus (v : option SetupStatusResponse) (s : Store) : Store :=
  mkStore (currentStep s) v (prerequisites s) (verificationResults s)
    (provisionResponse s) (loading s) (error s) (domainConfig s).

Definition with_prerequisites (v : option PrerequisitesResponse) (s : Store) : Store :=
  mkStore (currentStep s) (setupStatus s) v (verificationResults s)
    (provisionResponse s) (loading s) (error s) (domainConfig s).

Definition with_verificationResults (v : option VerificationResponse) (s : Store) : Store :=
  mkStore (currentStep s) (setupStatus s) (prerequisites s) v
    (provisionResponse s) (loading s) (error s) (domainConfig s).

Definition with_provisionResponse (v : option ProvisionResponse) (s : Store) : Store :=
  mkStore (currentStep s) (setupStatus s) (prerequisites s) (verificationResults s)
    v (loading s) (error s) (domainConfig s).

Definition with_loading (v : bool) (s : Store) : Store :=
  mkStore (currentStep s) (setupStatus s) (prerequisites s) (verificationResults s)
    (provisionResponse s) v (error s) (domainConfig s).

Definition with_error (v : option string) (s : Store) : Store :=
  mkStore (currentStep s) (setupStatus s) (prerequisites s) (verificationResults s)
    (provisionResponse s) (loading s) v (domainConfig s).

Definition with_domainConfig (v : DomainConfig) (s : Store) : Store :=
  mkStore (currentStep s) (setupStatus s) (prerequisites s) (verificationResults s)
    (provisionResponse s) (loading s) (error s) v.

Definition with_realm (v : string) (c : DomainConfig) : DomainConfig :=
  mkDomainConfig v (domain c) (domain_name c) (admin_password c) (dns_backend c)
    (dns_forwarder c) (server_role c) (host_ip c) (function_level c).

Definition with_domain (v : string) (c : DomainConfig) : DomainConfig :=
  mkDomainConfig (realm c) v (domain_name c) (admin_password c) (dns_backend c)
    (dns_forwarder c) (server_role c) (host_ip c) (function_level c).

Definition with_domain_name (v : string) (c : DomainConfig) : DomainConfig :=
  mkDomainConfig (realm c) (domain c) v (admin_password c) (dns_backend c)
    (dns_forwarder c) (server_role c) (host_ip c) (function_level c).

Definition with_admin_password (v : string) (c : DomainConfig) : DomainConfig :=
  mkDomainConfig (realm c) (domain c) (domain_name c) v (dns_backend c)
    (dns_forwarder c) (server_role c) (host_ip c) (function_level c).

Definition with_dns_backend (v : DNSBackendType) (c : DomainConfig) : DomainConfig :=
  mkDomainConfig (realm c) (domain c) (domain_name c) (admin_password c) v
    (dns_forwarder c) (server_role c) (host_ip c) (function_level c).

Definition with_server_role (v : string) (c : DomainConfig) : DomainConfig :=
  mkDomainConfig (realm c) (domain c) (domain_name c) (admin_password c) (dns_backend c)
    (dns_forwarder c) v (host_ip c) (function_level c).

(** ** Worlds and actions *)

Record World (L : Type) := mkWorld {
  local : L;
  store : Store;
  sent : list Request
}.
Arguments mkWorld {L} _ _ _.
Arguments local {L} _.
Arguments store {L} _.
Arguments sent {L} _.

Inductive Completion (A : Type) :=
| Returned (a : A)
| Threw (e : Thrown).
Arguments Returned {A} _.
Arguments Threw {A} _.

Definition Action (L A : Type) : Type := World L -> Completion A * World L.

Definition ret {L A} (a : A) : Action L A := fun w => (Returned a, w).

Definition bind {L A B} (m : Action L A) (k : A -> Action L B) : Action L B :=
  fun w =>
    match m w with
    | (Returned a, w') => k a w'
    | (Threw e, w') => (Threw e, w')
    end.

Definition throw {L A} (e : Thrown) : Action L A := fun w => (Threw e, w).

(** [try { body } catch (e) { handler e }] *)
Definition try_catch {L A} (body : Action L A) (handler : Thrown -> Action L A) : Action L A :=
  fun w =>
    match body w with
    | (Returned a, w') => (Returned a, w')
    | (Threw e, w') => handler e w'
    end.

(** [try { body } finally { fin }], for a [fin] that completes normally:
    the completion of [body] is kept. *)
Definition try_finally {L A} (body : Action L A) (fin : Action L unit) : Action L A :=
  fun w =>
    match body w with
    | (c, w') =>
        match fin w' with
        | (Returned _, w'') => (c, w'')
        | (Threw e, w'') => (Threw e, w'')
        end
    end.

#[global] Instance action_ret {L} : MRet (Action L) := fun A => @ret L A.
#[global] Instance action_bind {L} : MBind (Action L) := fun A B k m => @bind L A B m k.

Definition update_store {L} (f : Store -> Store) : Action L unit :=
  fun w => (Returned tt, mkWorld (local w) (f (store w)) (sent w)).

Definition read_store {L A} (f : Store -> A) : Action L A :=
  fun w => (Returned (f (store w)), w).

Definition update_local {L} (f : L -> L) : Action L unit :=
  fun w => (Returned tt, mkWorld (f (local w)) (store w) (sent w)).

Definition read_local {L A} (f : L -> A) : Action L A :=
  fun w => (Returned (f (local w)), w).

(** One HTTP request: it is appended to the log, and the promise settles
    with the backend's answer for the requests sent so far. *)
Definition request {L T} (r : Request) (answer : list Request -> Thrown + T) : Action L T :=
  fun w =>
    let w' := mkWorld (local w) (store w) (sent w ++ [r]) in
    match answer (sent w) with
    | inl e => (Threw e, w')
    | inr v => (Returned v, w')
    end.

(** ** The store's getters and actions ([stores/setup.ts], lines 39-163) *)

(** [setupStatus.value?.is_provisioned ?? false] *)
Definition isProvisioned (s : Store) : bool :=
  match setupStatus s with
  | Some r => is_provisioned r
  | None => false
  end.

Definition canProceed (s : Store) : bool :=
  if currentStep s =? 1 then
    match prerequisites s with
    | Some r => all_passed r
    | None => false
    end
  else true.

Section StoreActions.
Context {L : Type} (be : Backend).

Definition checkStatus : Action L unit :=
  update_store (with_loading true);;
  update_store (with_error None);;
  try_finally
    (try_catch
       (r ← request GET_status (status_reply be);
        update_store (with_setupStatus (Some r)))
       (fun e =>
          update_store (with_error (Some (message_or e "Failed to check status")));;
          throw e))
    (update_store (with_loading false)).

Definition checkPrerequisites : Action L unit :=
  update_store (with_loading true);;
  update_store (with_error None);;
  try_finally
    (try_catch
       (r ← request POST_check_prerequisites (prerequisites_reply be);
        update_store (with_prerequisites (Some r)))
       (fun e =>
          update_store (with_error (Some (message_or e "Failed to check prerequisites")));;
          throw e))
    (update_store (with_loading false)).

Definition validateConfiguration : Action L string :=
  update_store (with_loading true);;
  update_store (with_error None);;
  try_finally
    (try_catch
       (cfg ← read_store domainConfig;
        result ← request (POST_validate_config cfg) (fun h => validate_reply be h cfg);
        mret result)
       (fun e =>
          update_store (with_error (Some (message_or e "Configuration validation failed")));;
          throw e))
    (update_store (with_loading false)).

Definition provisionDomain : Action L ProvisionResponse :=
  update_store (with_loading true);;
  update_store (with_error None);;
  try_finally
    (try_catch
       (cfg ← read_store domainConfig;
        r ← request (POST_provision cfg) (fun h => provision_reply be h cfg);
        update_store (with_provisionResponse (Some r));;
        mret r)
       (fun e =>
          update_store (with_error (Some (message_or e "Domain provisioning failed")));;
          throw e))
    (update_store (with_loading false)).

Definition runVerificationTests : Action L VerificationResponse :=
  update_store (with_loading true);;
  update_store (with_error None);;
  try_finally
    (try_catch
       (cfg ← read_store domainConfig;
        r ← request (POST_verify cfg) (fun h => verify_reply be h cfg);
        update_store (with_verificationResults (Some r));;
        mret r)
       (fun e =>
          update_store (with_error (Some (message_or e "Verification tests failed")));;
          throw e))
    (update_store (with_loading false)).

Definition nextStep : Action L unit :=
  update_store (fun s =>
    if currentStep s <? 7 then with_currentStep (currentStep s + 1) s else s).

Definition previousStep : Action L unit :=
  update_store (fun s =>
    if currentStep s >? 0 then with_currentStep (currentStep s - 1) s else s).

Definition goToStep (step : Z) : Action L unit :=
  update_store (with_currentStep step).

Definition resetWizard : Action L unit :=
  update_store (with_currentStep 0);;
  update_store (with_prerequisites None);;
  update_store (with_verificationResults None);;
  update_store (with_provisionResponse None);;
  update_store (with_error None).

Definition resetDomain : Action L (bool * string) :=
  update_store (with_loading true);;
  update_store (with_error None);;
  try_finally
    (try_catch
       (result ← request POST_reset (reset_reply be);
        checkStatus;;
        resetWizard;;
        mret result)
       (fun e =>
          update_store (with_error (Some (message_or e "Domain reset failed")));;
          throw e))
    (update_store (with_loading false)).

Definition skipToVerification : Action L unit :=
  update_store (with_currentStep 6).
End StoreActions.

(** ** PrerequisitesStep.vue *)

Module PrerequisitesStep.
Record Local := mkLocal { checking : bool }.

Definition mounted : Local := {| checking := false |}.

Section Component.
Context (be : Backend).

Definition runChecks : Action Local unit :=
  update_local (fun _ => mkLocal true);;
  try_finally
    (try_catch (checkPrerequisites be) (fun _ => mret tt))
    (update_local (fun _ => mkLocal false)).

Definition onMounted : Action Local unit :=
  p ← read_store prerequisites;
  match p with
  | None => runChecks
  | Some _ => mret tt
  end.

(** [:disabled="!setupStore.canProceed || checking"] *)
Definition continue_disabled (w : World Local) : bool :=
  negb (canProceed (store w)) || checking (local w).

(** A click on a disabled button runs no handler. *)
Definition click_continue : Action Local unit :=
  fun w => if continue_disabled w then (Returned tt, w) else nextStep w.

Definition click_recheck : Action Local unit :=
  fun w => if checking (local w) then (Returned tt, w) else runChecks w.

Definition click_back : Action Local unit := previousStep.
End Component.
End PrerequisitesStep.

(** ** DomainConfigStep.vue

    [config] is the store's reactive [domainConfig] object itself, so every
    write of the component is a write to the store. *)

Module DomainConfigStep.
Record Local := mkLocal { confirmPassword : string }.

Definition mounted : Local := {| confirmPassword := "" |}.

Definition passwordsMatch (config : DomainConfig) (l : Local) : bool :=
  String.eqb (admin_password config) (confirmPassword l).

Definition isValid (config : DomainConfig) (l : Local) : bool :=
  (len (realm config) >? 0) &&
  (len (domain config) >? 0) &&
  (len (domain_name config) >? 0) &&
  (len (admin_password config) >=? 8) &&
  passwordsMatch config l.

(** [parts[0] || config.domain_name]; [split] never returns an empty
    array. *)
Definition first_label (name : string) : string :=
  match split "." name with
  | p :: _ => if truthy p then p else name
  | [] => name
  end.

Definition autofill (config : DomainConfig) : DomainConfig :=
  if truthy (domain_name config) then
    let config1 := with_realm (toUpperCase (domain_name config)) config in
    with_domain (toUpperCase (first_label (domain_name config1))) config1
  else config.

Definition autofillFromDomain : Action Local unit :=
  update_store (fun s => with_domainConfig (autofill (domainConfig s)) s).

(** The text inputs.  The browser keeps what the user types into the
    NetBIOS field within [maxlength="15"]; the attribute does not apply
    to values written by the script. *)
Definition maxlength : nat := 15.

Fixpoint take_string (n : nat) (s : string) : string :=
  match n, s with
  | O, _ => EmptyString
  | S n', EmptyString => EmptyString
  | S n', String c r => String c (take_string n' r)
  end.

Definition type_domain_name (v : string) : Action Local unit :=
  update_store (fun s => with_domainConfig (with_domain_name v (domainConfig s)) s).

Definition type_realm (v : string) : Action Local unit :=
  update_store (fun s => with_domainConfig (with_realm v (domainConfig s)) s).

Definition type_domain (v : string) : Action Local unit :=
  update_store (fun s =>
    with_domainConfig (with_domain (take_string maxlength v) (domainConfig s)) s).

Definition type_admin_password (v : string) : Action Local unit :=
  update_store (fun s => with_domainConfig (with_admin_password v (domainConfig s)) s).

Definition type_confirm_password (v : string) : Action Local unit :=
  update_local (fun _ => mkLocal v).

(** [:disabled="!isValid"] on the Continue button. *)
Definition click_continue : Action Local unit :=
  fun w => if isValid (domainConfig (store w)) (local w) then nextStep w
           else (Returned tt, w).
End DomainConfigStep.

(** ** ProvisionStep.vue *)

Module ProvisionStep.
Record Local := mkLocal {
  provisioning : bool;
  provisionStatus : string;
  provisionOutput : list string;
  (** callbacks scheduled by [setTimeout(() => setupStore.nextStep(), 2000)] *)
  pending_advance : nat
}.

Definition mounted : Local :=
  {| provisioning := false; provisionStatus := ""; provisionOutput := [];
     pending_advance := 0 |}.

Definition with_provisioning (v : bool) (l : Local) : Local :=
  mkLocal v (provisionStatus l) (provisionOutput l) (pending_advance l).
Definition with_provisionStatus (v : string) (l : Local) : Local :=
  mkLocal (provisioning l) v (provisionOutput l) (pending_advance l).
Definition with_provisionOutput (v : list string) (l : Local) : Local :=
  mkLocal (provisioning l) (provisionStatus l) v (pending_advance l).
Definition schedule_advance (l : Local) : Local :=
  mkLocal (provisioning l) (provisionStatus l) (provisionOutput l) (S (pending_advance l)).

Definition newline : ascii := ascii_of_nat 10.

(** [if (text) provisionOutput.value = text.split('\n')] for an optional
    field: an absent or empty text is falsy. *)
Definition show_lines (text : option string) : Action Local unit :=
  match text with
  | Some t => if truthy t then update_local (with_provisionOutput (split newline t))
              else mret tt
  | None => mret tt
  end.

Section Component.
Context (be : Backend).

Definition startProvisioning : Action Local unit :=
  update_local (with_provisioning true);;
  update_local (with_provisionStatus "Starting domain provision...");;
  try_finally
    (try_catch
       (response ← provisionDomain be;
        match prov_status response with
        | COMPLETED =>
            update_local (with_provisionStatus "Provision completed successfully!");;
            show_lines (output response);;
            update_local schedule_advance
        | FAILED =>
            update_local (with_provisionStatus "Provision failed");;
            show_lines (prov_error response)
        | _ => mret tt
        end)
       (fun e =>
          update_local (with_provisionStatus "Error during provisioning");;
          update_local (with_provisionOutput [message_or e "Unknown error"])))
    (update_local (with_provisioning false)).

Definition onMounted : Action Local unit :=
  p ← read_store isProvisioned;
  if (p : bool) then update_local (with_provisionStatus "Domain already exists")
  else startProvisioning.

(** The Retry button is rendered when the step is not provisioning and
    the last response has status [FAILED]. *)
Definition retry_shown (w : World Local) : bool :=
  negb (provisioning (local w)) &&
  match provisionResponse (store w) with
  | Some r => bool_decide (prov_status r = FAILED)
  | None => false
  end.

Definition click_retry : Action Local unit :=
  fun w => if retry_shown w then startProvisioning w else (Returned tt, w).
End Component.
End ProvisionStep.

(** ** VerificationStep.vue *)

Module VerificationStep.
Record Local := mkLocal {
  running : bool;
  needsPassword : bool;
  adminPassword : string;
  passwordError : string
}.

Definition mounted : Local :=
  {| running := false; needsPassword := false; adminPassword := ""; passwordError := "" |}.

Definition with_running (v : bool) (l : Local) : Local :=
  mkLocal v (needsPassword l) (adminPassword l) (passwordError l).
Definition with_needsPassword (v : bool) (l : Local) : Local :=
  mkLocal (running l) v (adminPassword l) (passwordError l).
Definition with_adminPassword (v : string) (l : Local) : Local :=
  mkLocal (running l) (needsPassword l) v (passwordError l).
Definition with_passwordError (v : string) (l : Local) : Local :=
  mkLocal (running l) (needsPassword l) (adminPassword l) v.

(** The placeholder test used both by [checkAndPrepareConfig] and by
    [runTests]. *)
Definition is_placeholder (c : DomainConfig) : bool :=
  String.eqb (domain_name c) "example.com" || String.eqb (realm c) "EXAMPLE.COM".

(** [if (domainInfo[key]) config = f(domainInfo[key])] *)
Definition when_present (info : gmap string string) (key : string)
    (f : string -> DomainConfig -> DomainConfig) (c : DomainConfig) : DomainConfig :=
  match info !! key with
  | Some v => if truthy v then f v c else c
  | None => c
  end.

Definition populate (info : gmap string string) (c : DomainConfig) : DomainConfig :=
  let c1 := when_present info "Forest"
              (fun v c => with_domain_name (toLowerCase v) (with_realm (toUpperCase v) c)) c in
  let c2 := when_present info "Domain" (fun v c => with_domain_name (toLowerCase v) c) c1 in
  let c3 := when_present info "Netbios domain" (fun v c => with_domain (toUpperCase v) c) c2 in
  with_server_role "dc" (with_dns_backend SAMBA_INTERNAL c3).

(** [needsPassword.value = admin_password.length < 8] written as the
    source's two-branch conditional. *)
Definition check_password_needed : Action Local unit :=
  c ← read_store domainConfig;
  if len (admin_password c) <? 8 then update_local (with_needsPassword true)
  else update_local (with_needsPassword false).

Section Component.
Context (be : Backend).

Definition checkAndPrepareConfig : Action Local unit :=
  p ← read_store isProvisioned;
  if (p : bool) then
    try_catch
      (c ← read_store domainConfig;
       (if is_placeholder c then
          info ← request GET_domain_info (domain_info_reply be);
          update_store (fun s => with_domainConfig (populate info (domainConfig s)) s)
        else mret tt);;
       check_password_needed)
      (fun e =>
         update_local (with_passwordError
           ("Failed to load domain info: " ++ message_or e "Unknown error"));;
         update_local (with_needsPassword true))
  else check_password_needed.

Definition runTests : Action Local unit :=
  checkAndPrepareConfig;;
  c ← read_store domainConfig;
  if negb (truthy (admin_password c)) || (len (admin_password c) <? 8) then
    update_local (with_needsPassword true);;
    update_local (with_passwordError
      "Administrator password is required for verification tests")
  else if is_placeholder c then
    update_local (with_passwordError
      "Unable to load domain configuration. Please check if domain is provisioned.")
  else
    update_local (with_running true);;
    try_finally
      (try_catch (runVerificationTests be;; mret tt) (fun _ => mret tt))
      (update_local (with_running false)).

Definition submitPassword : Action Local unit :=
  update_local (with_passwordError "");;
  pw ← read_local adminPassword;
  if len pw <? 8 then
    update_local (with_passwordError "Password must be at least 8 characters")
  else
    update_store (fun s => with_domainConfig (with_admin_password pw (domainConfig s)) s);;
    update_local (with_needsPassword false);;
    runTests.

Definition onMounted : Action Local unit :=
  checkStatus be;;
  checkAndPrepareConfig;;
  r ← read_store verificationResults;
  n ← read_local needsPassword;
  if bool_decide (r = None) && negb n then runTests else mret tt.

(** The password field is bound with [v-model="adminPassword"]. *)
Definition type_password (v : string) : Action Local unit :=
  update_local (with_adminPassword v).

(** Both buttons of the button group are disabled only while
    [running]. *)
Definition click_run_again : Action Local unit :=
  fun w => if running (local w) then (Returned tt, w) else runTests w.

Definition click_continue : Action Local unit :=
  fun w => if running (local w) then (Returned tt, w) else nextStep w.
End Component.
End VerificationStep.

(** ** Sessions: every way of driving the store

    The store's public actions, together with the direct writes the
    components make to the reactive [domainConfig] object.  A session is a
    list of such events run from the initial store. *)

Inductive StoreEvent :=
| DoCheckStatus
| DoCheckPrerequisites
| DoValidateConfiguration
| DoProvisionDomain
| DoRunVerificationTests
| DoNextStep
| DoPreviousStep
| DoGoToStep (step : Z)
| DoResetWizard
| DoResetDomain
| DoSkipToVerification
| DoWriteConfig (f : DomainConfig -> DomainConfig).

(** The caller's view of a call whose result is not used. *)
Definition discard {L A} (m : Action L A) : Action L unit :=
  fun w => match m w with
           | (Returned _, w') => (Returned tt, w')
           | (Threw e, w') => (Threw e, w')
           end.

Definition handle (be : Backend) (ev : StoreEvent) : Action unit unit :=
  match ev with
  | DoCheckStatus => checkStatus be
  | DoCheckPrerequisites => checkPrerequisites be
  | DoValidateConfiguration => discard (validateConfiguration be)
  | DoProvisionDomain => discard (provisionDomain be)
  | DoRunVerificationTests => discard (runVerificationTests be)
  | DoNextStep => nextStep
  | DoPreviousStep => previousStep
  | DoGoToStep step => goToStep step
  | DoResetWizard => resetWizard
  | DoResetDomain => discard (resetDomain be)
  | DoSkipToVerification => skipToVerification
  | DoWriteConfig f => update_store (fun s => with_domainConfig (f (domainConfig s)) s)
  end.

Definition initial_world : World unit := mkWorld tt initial_store [].

(** The world after a session; a thrown value is the caller's to deal with
    and does not stop the session. *)
Definition session (be : Backend) (evs : list StoreEvent) : World unit :=
  fold_left (fun w ev => (handle be ev w).2) evs initial_world.

(** The same store seen from a component with local refs [l]. *)
Definition view {L} (l : L) (w : World unit) : World L :=
  mkWorld l (store w) (sent w).

(** ** The prerequisite checker *)

(** What running one environment check gives: a reported result, or a
    crash of the check itself. *)
Inductive CheckOutcome :=
| Reported (st : CheckStatus) (msg : string) (detail : option string)
| Crashed (msg : string).

(** Modelled from the spec: the backend's prerequisite checker, which is
    not among the frontend sources.  Section 4.2: a crash of one check
    becomes a [failed] result for that check only; the answer is
    [{allPassed, checks[]}] with [allPassed] true iff no entry is
    [failed]. *)
Definition isolate (named : string * CheckOutcome) : PrerequisiteCheck :=
  match named.2 with
  | Reported st msg detail => mkPrerequisiteCheck named.1 st msg detail
  | Crashed msg => mkPrerequisiteCheck named.1 check_failed msg None
  end.

Definition not_failed (c : PrerequisiteCheck) : bool :=
  negb (bool_decide (check_status c = check_failed)).

(** Modelled from the spec: [getPrerequisites] of section 6, for the
    outcomes of the battery's checks. *)
Definition getPrerequisites (battery : list (string * CheckOutcome)) : PrerequisitesResponse :=
  let results := map isolate battery in
  {| all_passed := forallb not_failed results; checks := results |}.

(** A backend whose prerequisite endpoint answers with what the checker
    computes. *)
Definition prerequisites_from_checker (be : Backend) : Prop :=
  forall h r, prerequisites_reply be h = inr r -> exists battery, r = getPrerequisites battery.

(** ** The verification engine *)

(** What running one live check gives: [(success, message, detail?)], or
    an unhandled exception; with the time the engine measured. *)
Inductive ProbeOutcome :=
| Answered (success : bool) (msg : string) (detail : option string)
| Raised (msg : string).

Record Probe := mkProbe {
  probe_name : string;
  probe_category : TestCategory;
  probe_run : DomainConfig -> string -> ProbeOutcome;
  probe_elapsed : Z
}.

(** An entry of the battery: an independent check, or a check together
    with the queries that depend on it. *)
Inductive BatteryEntry :=
| Independent (p : Probe)
| WithDependents (lead : Probe) (dependents : list Probe).

(** Modelled from the spec: the per-check wrapper of the verification
    engine (section 4.4), absent from the frontend sources.  An unhandled
    exception becomes a [failed] result. *)
Definition run_probe (cfg : DomainConfig) (password : string) (p : Probe) : VerificationTest :=
  match probe_run p cfg password with
  | Answered true msg detail =>
      mkVerificationTest (probe_name p) (probe_category p) test_passed msg detail
        (Some (probe_elapsed p))
  | Answered false msg detail =>
      mkVerificationTest (probe_name p) (probe_category p) test_failed msg detail
        (Some (probe_elapsed p))
  | Raised msg =>
      mkVerificationTest (probe_name p) (probe_category p) test_failed msg None
        (Some (probe_elapsed p))
  end.

(** Modelled from the spec: a dependent query that is not run is marked
    [skipped]. *)
Definition skip_probe (p : Probe) : VerificationTest :=
  mkVerificationTest (probe_name p) (probe_category p) test_skipped
    "Skipped because the check it depends on failed" None None.

(** Modelled from the spec: if the lead check (the directory bind) fails,
    its dependent queries are skipped, not failed. *)
Definition run_entry (cfg : DomainConfig) (password : string) (e : BatteryEntry)
    : list VerificationTest :=
  match e with
  | Independent p => [run_probe cfg password p]
  | WithDependents lead dependents =>
      let t := run_probe cfg password lead in
      if bool_decide (status t = test_passed)
      then t :: map (run_probe cfg password) dependents
      else t :: map skip_probe dependents
  end.

Definition count_status (st : TestStatus) (ts : list VerificationTest) : Z :=
  Z.of_nat (length (filter (fun t => status t = st) ts)).

(** Modelled from the spec: the rule of section 3 for [overallStatus],
    read in the order it is written. *)
Definition overallStatus (passedCount failedCount skippedCount : Z) : OverallStatus :=
  if (failedCount =? 0) && (skippedCount =? 0) then overall_passed
  else if (passedCount >? 0) && (failedCount >? 0) then overall_partial
  else overall_failed.

Definition summary_line (o : OverallStatus) : string :=
  match o with
  | overall_passed => "All verification tests passed"
  | overall_partial => "Some verification tests failed"
  | overall_failed => "Verification failed"
  end.

(** Modelled from the spec: aggregation of a finished run (section 4.4). *)
Definition aggregate (ts : list VerificationTest) : VerificationResponse :=
  let p := count_status test_passed ts in
  let f := count_status test_failed ts in
  let s := count_status test_skipped ts in
  let o := overallStatus p f s in
  {| overall_status := o;
     total_tests := Z.of_nat (length ts);
     passed := p;
     failed := f;
     skipped := s;
     tests := ts;
     summary := summary_line o |}.

(** Modelled from the spec: [runVerification] of section 6; the entries
    are run in the battery's order and the run is returned once
    complete. *)
Definition runVerification (battery : list BatteryEntry) (cfg : DomainConfig)
    (password : string) : VerificationResponse :=
  aggregate (flat_map (run_entry cfg password) battery).

(** Modelled from the spec: the representative checks of section 4.4 in
    the engine's execution order, each answering through [env]. *)
Definition spec_battery (env : string -> DomainConfig -> string -> ProbeOutcome)
    : list BatteryEntry :=
  let probe name cat := mkProbe name cat (env name) 1 in
  [ Independent (probe "DNS: resolve domain name" cat_dns);
    Independent (probe "DNS: directory SRV record" cat_dns);
    Independent (probe "DNS: ticket-auth SRV record" cat_dns);
    Independent (probe "Port 389" cat_services);
    Independent (probe "Port 636" cat_services);
    Independent (probe "Port 88" cat_services);
    Independent (probe "Port 445" cat_services);
    Independent (probe "Port 53" cat_services);
    WithDependents (probe "LDAP: anonymous bind" cat_ldap)
      [ probe "LDAP: root DN query" cat_ldap;
        probe "LDAP: users container query" cat_ldap ];
    Independent (probe "Kerberos: acquire ticket" cat_kerberos);
    Independent (probe "Kerberos: ticket cache" cat_kerberos);
    Independent (probe "Authentication: file-sharing login" cat_auth) ].

(** ** Step navigation by [nextStep] and [previousStep] *)

Definition step_in_range (s : Store) : Prop := 0 <= currentStep s <= 7.

Inductive NavEvent := Next | Previous.

Definition navigate {L} (ev : NavEvent) : Action L unit :=
  match ev with
  | Next => nextStep
  | Previous => previousStep
  end.

Definition navigate_all {L} (evs : list NavEvent) (w : World L) : World L :=
  fold_left (fun w ev => (navigate ev w).2) evs w.

(** ** Outcomes of the store's backend actions *)

(** The four cached results of the store. *)
Definition cached_results (s : Store) :=
  (setupStatus s, prerequisites s, provisionResponse s, verificationResults s).

(** A call that fails cleanly with [e]: [e] reaches the caller, the cached
    results are the ones from before the call, and [error] holds a
    message. *)
Definition fails_cleanly {L A} (act : Action L A) (w : World L) (e : Thrown) : Prop :=
  (act w).1 = Threw e /\
  cached_results (store (act w).2) = cached_results (store w) /\
  is_Some (error (store (act w).2)).

Definition not_loading_after {L A} (act : Action L A) (w : World L) : Prop :=
  loading (store (act w).2) = false.

(** ** Example backends *)

(** Every request is rejected, as when the server cannot be reached. *)
Definition unreachable_backend : Backend :=
  let e := ErrorObject "Network Error" in
  {| status_reply := fun _ => inl e;
     prerequisites_reply := fun _ => inl e;
     validate_reply := fun _ _ => inl e;
     provision_reply := fun _ _ => inl e;
     verify_reply := fun _ _ => inl e;
     domain_info_reply := fun _ => inl e;
     reset_reply := fun _ => inl e |}.

(** ** What [resetWizard] leaves behind *)

(** [s'] is [s0] after the wizard was reset: back on the Welcome step,
    results and error cleared, configuration as it was. *)
Definition wizard_reset (s0 s' : Store) : Prop :=
  currentStep s' = WELCOME /\
  prerequisites s' = None /\
  verificationResults s' = None /\
  provisionResponse s' = None /\
  error s' = None /\
  domainConfig s' = domainConfig s0.

(** The reset succeeds and the refreshed status says that no domain is
    left; everything else is rejected. *)
Definition reset_backend : Backend :=
  let e := ErrorObject "Network Error" in
  {| status_reply := fun _ => inr (mkSetupStatusResponse false None None);
     prerequisites_reply := fun _ => inl e;
     validate_reply := fun _ _ => inl e;
     provision_reply := fun _ _ => inl e;
     verify_reply := fun _ _ => inl e;
     domain_info_reply := fun _ => inl e;
     reset_reply := fun _ => inr (true, "Domain configuration reset") |}.

(** A store in the middle of a session, with a password typed in. *)
Definition busy_store : Store :=
  {| currentStep := PROVISION;
     setupStatus := Some (mkSetupStatusResponse true None None);
     prerequisites := Some (mkPrerequisitesResponse true []);
     verificationResults := None;
     provisionResponse := Some (mkProvisionResponse FAILED "provision failed" None None
                                  (Some "samba-tool: error"));
     loading := false;
     error := Some "Domain provisioning failed";
     domainConfig := with_admin_password "Str0ngPass1!"
                       (with_domain "CORP"
                          (with_realm "CORP.TEST"
                             (with_domain_name "corp.test" initial_domainConfig))) |}.

(** ** Example answers of the provisioning and verification endpoints *)

Definition completed_job : ProvisionResponse :=
  mkProvisionResponse COMPLETED "Domain provisioned" None (Some "Provision OK") None.

Definition failed_job : ProvisionResponse :=
  mkProvisionResponse FAILED "Provision failed" None None (Some "samba-tool: error").

Definition green_run : VerificationResponse :=
  mkVerificationResponse overall_passed 1 1 0 0
    [mkVerificationTest "DNS: resolve domain name" cat_dns test_passed "Resolved" None (Some 45)]
    "All verification tests passed".

(** A backend that provisions whenever asked: the first request fails in
    the provisioning tool, every later one completes. *)
Definition retrying_backend : Backend :=
  let e := ErrorObject "Network Error" in
  {| status_reply := fun _ => inr (mkSetupStatusResponse false None None);
     prerequisites_reply := fun _ => inl e;
     validate_reply := fun _ _ => inl e;
     provision_reply := fun h _ =>
       match h with
       | [] => inr failed_job
       | _ :: _ => inr completed_job
       end;
     verify_reply := fun _ _ => inr green_run;
     domain_info_reply := fun _ => inl e;
     reset_reply := fun _ => inl e |}.

(** The configuration of the spec's provisioning scenario. *)
Definition scenario_config : DomainConfig :=
  with_admin_password "Str0ngPass1!" initial_domainConfig.

(** A configuration for a domain of its own, with the password typed in. *)
Definition corp_config : DomainConfig :=
  with_admin_password "Str0ngPass1!"
    (with_domain "CORP" (with_realm "CORP.TEST" (with_domain_name "corp.test"
       initial_domainConfig))).

Definition is_provision (r : Request) : bool :=
  match r with POST_provision _ => true | _ => false end.

Definition is_reset (r : Request) : bool :=
  match r with POST_reset => true | _ => false end.

Definition is_verify (r : Request) : bool :=
  match r with POST_verify _ => true | _ => false end.

Definition is_domain_info (r : Request) : bool :=
  match r with GET_domain_info => true | _ => false end.

(** The requests of one kind among those sent. *)
Definition requests (kind : Request -> bool) (h : list Request) : list Request :=
  List.filter kind h.

(** ** Statements about provisioning twice and about the password *)

(** The second of two consecutive calls of [provisionDomain] is rejected:
    it throws, sends no provisioning request and leaves the last
    [provisionResponse] in place. *)
Definition rejects_second_provision {L} (be : Backend) (w : World L) : Prop :=
  let w1 := (provisionDomain be w).2 in
  let r2 := provisionDomain be w1 in
  (exists e, r2.1 = Threw e) /\
  requests is_provision (sent r2.2) = requests is_provision (sent w1) /\
  provisionResponse (store r2.2) = provisionResponse (store w1).

(** The configuration no longer holds a password once [act] is done. *)
Definition password_dropped_after {L A} (act : Action L A) (w : World L) : Prop :=
  admin_password (domainConfig (store (act w).2)) = "".

Definition writes_config (ev : StoreEvent) : bool :=
  match ev with DoWriteConfig _ => true | _ => false end.

(** The world in which ProvisionStep is mounted on a clean host with
    [corp_config] entered. *)
Definition provision_step_entered : World ProvisionStep.Local :=
  mkWorld ProvisionStep.mounted (with_domainConfig corp_config initial_store) [].

(** ** The password prompt of VerificationStep *)

(** What the user can do while the prompt is shown. *)
Inductive PromptEvent :=
| TypePassword (v : string)
| SubmitPassword
| RunTestsAgain.

Definition prompt_step (be : Backend) (ev : PromptEvent)
    : Action VerificationStep.Local unit :=
  match ev with
  | TypePassword v => VerificationStep.type_password v
  | SubmitPassword => VerificationStep.submitPassword be
  | RunTestsAgain => VerificationStep.click_run_again be
  end.

Definition prompt_steps (be : Backend) (evs : list PromptEvent)
    (w : World VerificationStep.Local) : World VerificationStep.Local :=
  fold_left (fun w ev => (prompt_step be ev w).2) evs w.

(** Nothing of at least 8 characters is typed. *)
Definition types_short (ev : PromptEvent) : Prop :=
  match ev with
  | TypePassword v => len v < 8
  | _ => True
  end.

(** The configuration's password is too short for verification. *)
Definition password_missing (w : World VerificationStep.Local) : Prop :=
  len (admin_password (domainConfig (store w))) < 8.

(** The world [submitPassword] hands to [runTests] when it accepts the
    typed password. *)
Definition password_accepted (w : World VerificationStep.Local)
    : World VerificationStep.Local :=
  mkWorld
    (VerificationStep.with_needsPassword false
       (VerificationStep.with_passwordError "" (local w)))
    (with_domainConfig
       (with_admin_password (VerificationStep.adminPassword (local w))
          (domainConfig (store w)))
       (store w))
    (sent w).

(** The status says a domain is provisioned and the domain answers the
    introspection request; verification passes. *)
Definition live_domain_backend : Backend :=
  let e := ErrorObject "Network Error" in
  {| status_reply := fun _ => inr (mkSetupStatusResponse true None None);
     prerequisites_reply := fun _ => inl e;
     validate_reply := fun _ _ => inl e;
     provision_reply := fun _ _ => inl e;
     verify_reply := fun _ _ => inr green_run;
     domain_info_reply := fun _ =>
       inr (<["Forest" := "corp.test"]>
              (<["Domain" := "corp.test"]>
                 (<["Netbios domain" := "CORP"]> ∅)));
     reset_reply := fun _ => inl e |}.

(** VerificationStep just mounted over a store whose cached status says
    that a domain is provisioned, with the default configuration. *)
Definition verification_entered : World VerificationStep.Local :=
  mkWorld VerificationStep.mounted
    (with_setupStatus (Some (mkSetupStatusResponse true None None))
       (with_currentStep VERIFICATION initial_store))
    [].

(** ** A session at the domain-configuration step *)

(** The user types a DNS domain name whose first label is longer than 15
    characters, leaves the field (which runs [autofillFromDomain]) and
    enters the password twice. *)
Definition long_name_entry : Action DomainConfigStep.Local unit :=
  DomainConfigStep.type_domain_name "averylongcompanyname.example.com";;
  DomainConfigStep.autofillFromDomain;;
  DomainConfigStep.type_admin_password "Str0ngPass1!";;
  DomainConfigStep.type_confirm_password "Str0ngPass1!".

Definition domain_config_entered : World DomainConfigStep.Local :=
  mkWorld DomainConfigStep.mounted (with_currentStep DOMAIN_CONFIG initial_store) [].

(** The NetBIOS limit the step's form states. *)
Definition netbios_within_limit (c : DomainConfig) : Prop := len (domain c) <= 15.

(** ** The guard of the Prerequisites step *)

Definition no_failed_check (r : PrerequisitesResponse) : Prop :=
  Forall (fun c => check_status c <> check_failed) (checks r).

(** The stored batch, if any, is an answer of the checker. *)
Definition batch_from_checker (s : Store) : Prop :=
  forall r, prerequisites s = Some r -> exists battery, r = getPrerequisites battery.

(** A host on which the tool is installed and a domain already exists:
    one check passes, one warns, none fails. *)
Definition warning_battery : list (string * CheckOutcome) :=
  [ ("Samba installation", Reported check_passed "samba-tool found" None);
    ("Existing domain", Reported check_warning "A domain is already provisioned" None) ].

Definition checker_backend : Backend :=
  let e := ErrorObject "Network Error" in
  {| status_reply := fun _ => inr (mkSetupStatusResponse true None None);
     prerequisites_reply := fun _ => inr (getPrerequisites warning_battery);
     validate_reply := fun _ _ => inl e;
     provision_reply := fun _ _ => inl e;
     verify_reply := fun _ _ => inl e;
     domain_info_reply := fun _ => inl e;
     reset_reply := fun _ => inl e |}.

(** ** Well-formed verification runs *)

(** The counts add up to the total and the verdict follows the rule of
    section 3. *)
Definition counts_add_up (r : VerificationResponse) : Prop :=
  passed r + failed r + skipped r = total_tests r.

Definition rule_holds (o : OverallStatus) (passedCount failedCount skippedCount : Z) : Prop :=
  (o = overall_passed <-> failedCount = 0 /\ skippedCount = 0) /\
  (o = overall_partial <-> passedCount > 0 /\ failedCount > 0) /\
  (o = overall_failed <-> passedCount = 0).

Definition verdict_follows_rule (r : VerificationResponse) : Prop :=
  rule_holds (overall_status r) (passed r) (failed r) (skipped r).

(** What the tests of a finished run have in common: every test passed,
    failed or was skipped, and a test is skipped only next to a failed
    one. *)
Definition finished (ts : list VerificationTest) : Prop :=
  count_status test_passed ts + count_status test_failed ts + count_status test_skipped ts
    = Z.of_nat (length ts) /\
  (0 < count_status test_skipped ts -> 0 < count_status test_failed ts).

(** The directory service does not answer the bind; every other check
    succeeds. *)
Definition ldap_down (name : string) (_ : DomainConfig) (_ : string) : ProbeOutcome :=
  if String.eqb name "LDAP: anonymous bind" then Raised "Can't contact LDAP server"
  else Answered true "OK" None.

(** * More of the wizard

    ** SetupWizard.vue and ExistingDomainModal.vue

    The wizard renders the component of the current step and, over it, the
    modal for an existing domain.  The modal's refs live as long as the
    modal is shown. *)

Inductive StepComponent :=
| WelcomeStep | PrerequisitesStepC | DomainConfigStepC | DNSConfigStep
| ReviewStep | ProvisionStepC | VerificationStepC | CompleteStep.

Module SetupWizard.
Record Local := mkLocal {
  showExistingDomainModal : bool;
  (** refs of ExistingDomainModal *)
  resetting : bool;
  errorMessage : option string
}.

Definition mounted : Local :=
  {| showExistingDomainModal := false; resetting := false; errorMessage := None |}.

Definition with_show (v : bool) (l : Local) : Local :=
  mkLocal v (resetting l) (errorMessage l).
Definition with_resetting (v : bool) (l : Local) : Local :=
  mkLocal (showExistingDomainModal l) v (errorMessage l).
Definition with_errorMessage (v : option string) (l : Local) : Local :=
  mkLocal (showExistingDomainModal l) (resetting l) v.

Definition components : list StepComponent :=
  [ WelcomeStep; PrerequisitesStepC; DomainConfigStepC; DNSConfigStep;
    ReviewStep; ProvisionStepC; VerificationStepC; CompleteStep ].

(** [components[setupStore.currentStep]]; an index outside the array
    gives [undefined]. *)
Definition currentStepComponent (s : Store) : option StepComponent :=
  if currentStep s <? 0 then None else nth_error components (Z.to_nat (currentStep s)).

(** [v-if="setupStore.isProvisioned && setupStore.currentStep < 6"] *)
Definition banner_shown (s : Store) : bool :=
  isProvisioned s && (currentStep s <? 6).

(** The modal is mounted afresh whenever it is shown. *)
Definition open_modal : Action Local unit :=
  update_local (fun _ => mkLocal true false None).

(** [closeModal], the handler of the modal's [close] event. *)
Definition closeModal : Action Local unit :=
  update_local (with_show false).

Section Component.
Context (be : Backend).

Definition onMounted : Action Local unit :=
  checkStatus be;;
  s ← read_store id;
  if isProvisioned s && (currentStep s =? 0) then update_local (with_show true)
  else mret tt.

(** ExistingDomainModal: [handleSkip] and [handleReset]. *)
Definition handleSkip : Action Local unit :=
  skipToVerification;;
  closeModal.

Definition handleReset : Action Local unit :=
  update_local (with_resetting true);;
  update_local (with_errorMessage None);;
  try_finally
    (try_catch
       (resetDomain be;; closeModal)
       (fun e => update_local (with_errorMessage (Some (message_or e "Failed to reset domain")))))
    (update_local (with_resetting false)).
End Component.
End SetupWizard.

(** ** The buttons the wizard's own components offer

    Every call of a store action that the components under [src/] make:
    [goToStep] is only ever called with 2, by ReviewStep. *)
Definition from_ui (ev : StoreEvent) : Prop :=
  match ev with
  | DoGoToStep step => step = DOMAIN_CONFIG
  | _ => True
  end.

(** The backend actions among the store's events. *)
Definition calls_backend (ev : StoreEvent) : bool :=
  match ev with
  | DoCheckStatus | DoCheckPrerequisites | DoValidateConfiguration
  | DoProvisionDomain | DoRunVerificationTests | DoResetDomain => true
  | _ => false
  end.

(** ** ProvisionStep.vue: template *)

(** [parts.join(sep)] *)
Fixpoint join (sep : string) (parts : list string) : string :=
  match parts with
  | [] => ""
  | [p] => p
  | p :: rest => p ++ sep ++ join sep rest
  end.

Module ProvisionStepView.
Import ProvisionStep.

(** [{{ provisionOutput.join('\n') }}] *)
Definition shown_output (l : Local) : string :=
  join (String newline "") (provisionOutput l).

Definition last_status (s : Store) : option ProvisionStatus :=
  prov_status <$> provisionResponse s.

Inductive Control :=
| SkipToVerification | ResetConfiguration | GoBack | Retry | ContinueToVerification.

#[global] Instance Control_eq_dec : EqDecision Control.
Proof. solve_decision. Defined.

(** The buttons rendered: those of the warning box
    ([isProvisioned && !provisioning]) and those of the button group
    ([!provisioning], each with its own [v-if]). *)
Definition controls (w : World Local) : list Control :=
  ((if isProvisioned (store w) && negb (provisioning (local w))
   then [SkipToVerification; ResetConfiguration] else []) ++
  (if negb (provisioning (local w)) then
     match last_status (store w) with
     | Some FAILED => [GoBack; Retry]
     | Some COMPLETED => [ContinueToVerification]
     | _ => []
     end
   else []))%list.

Definition click_continue : Action Local unit :=
  fun w => if bool_decide (ContinueToVerification ∈ controls w) then nextStep w
           else (Returned tt, w).

(** A callback scheduled by [setTimeout] runs when its delay is over; the
    component never cancels one. *)
Definition timer_fires : Action Local unit :=
  fun w =>
    match pending_advance (local w) with
    | O => (Returned tt, w)
    | S n =>
        nextStep
          (mkWorld (mkLocal (provisioning (local w)) (provisionStatus (local w))
                      (provisionOutput (local w)) n)
             (store w) (sent w))
    end.
End ProvisionStepView.

(** ** VerificationStep.vue: [testsByCategory] *)

#[global] Instance TestCategory_eq_dec : EqDecision TestCategory.
Proof. solve_decision. Defined.

(** The object built by [testsByCategory] keeps its keys in the order of
    their first insertion, which is the order [v-for] renders them in. *)
Fixpoint push_test (t : VerificationTest) (categories : list (TestCategory * list VerificationTest))
    : list (TestCategory * list VerificationTest) :=
  match categories with
  | [] => [(category t, [t])]
  | (c, ts) :: rest =>
      if decide (c = category t) then (c, (ts ++ [t])%list) :: rest
      else (c, ts) :: push_test t rest
  end.

Definition testsByCategory (s : Store) : list (TestCategory * list VerificationTest) :=
  match verificationResults s with
  | None => []
  | Some r => fold_left (fun categories t => push_test t categories) (tests r) []
  end.

(** [categories[c]], [undefined] when the key is absent. *)
Fixpoint tests_of (c : TestCategory) (categories : list (TestCategory * list VerificationTest))
    : option (list VerificationTest) :=
  match categories with
  | [] => None
  | (c', ts) :: rest => if decide (c' = c) then Some ts else tests_of c rest
  end.

(** A store well into a session, on the Review step. *)
Definition review_store : Store :=
  {| currentStep := REVIEW;
     setupStatus := Some (mkSetupStatusResponse false None None);
     prerequisites := Some (getPrerequisites warning_battery);
     verificationResults := None;
     provisionResponse := None;
     loading := false;
     error := None;
     domainConfig := corp_config |}.

(** The reset succeeds but the status refresh that follows is rejected. *)
Definition half_reset_backend : Backend :=
  let e := ErrorObject "Network Error" in
  {| status_reply := fun _ => inl e;
     prerequisites_reply := fun _ => inl e;
     validate_reply := fun _ _ => inl e;
     provision_reply := fun _ _ => inl e;
     verify_reply := fun _ _ => inl e;
     domain_info_reply := fun _ => inl e;
     reset_reply := fun _ => inr (true, "Domain configuration reset") |}.

(** The lines ProvisionStep shows after an answer whose text is [text],
    when it showed [old] before: [show_lines] replaces them only for a
    non-empty text. *)
Definition lines_after (text : option string) (old : list string) : list string :=
  match text with
  | Some t => if truthy t then split ProvisionStep.newline t else old
  | None => old
  end.

(** ProvisionStep mounted on the Provision step of a clean host, with
    [corp_config] entered. *)
Definition provision_step_on_step : World ProvisionStep.Local :=
  mkWorld ProvisionStep.mounted
    (with_currentStep PROVISION (with_domainConfig corp_config initial_store)) [].

(** Provisioning completes at the first request. *)
Definition completing_backend : Backend :=
  let e := ErrorObject "Network Error" in
  {| status_reply := fun _ => inr (mkSetupStatusResponse true None None);
     prerequisites_reply := fun _ => inl e;
     validate_reply := fun _ _ => inl e;
     provision_reply := fun _ _ => inr completed_job;
     verify_reply := fun _ _ => inr green_run;
     domain_info_reply := fun _ => inl e;
     reset_reply := fun _ => inl e |}.

(** ** What VerificationStep sends *)

(** A configuration fit for verification: a password of at least 8
    characters and neither placeholder value. *)
Definition fit_for_verification (c : DomainConfig) : Prop :=
  8 <= len (admin_password c) /\ VerificationStep.is_placeholder c = false.

Definition verifies_fit_only (r : Request) : Prop :=
  match r with
  | POST_verify c => fit_for_verification c
  | _ => True
  end.

(** [act] only adds requests to the log, and every verification request
    it adds carries a configuration fit for verification. *)
Definition sends_fit_only {L A} (act : Action L A) (w : World L) : Prop :=
  exists added, sent (act w).2 = (sent w ++ added)%list /\ Forall verifies_fit_only added.

(** VerificationStep mounted with a password in the configuration, on a
    host whose cached status shows a provisioned domain. *)
Definition verification_with_password : World VerificationStep.Local :=
  mkWorld VerificationStep.mounted
    (with_domainConfig scenario_config
       (with_setupStatus (Some (mkSetupStatusResponse true None None))
          (with_currentStep VERIFICATION initial_store)))
    [].

(** The live domain is called example.com. *)
Definition example_com_backend : Backend :=
  let e := ErrorObject "Network Error" in
  {| status_reply := fun _ => inr (mkSetupStatusResponse true None None);
     prerequisites_reply := fun _ => inl e;
     validate_reply := fun _ _ => inl e;
     provision_reply := fun _ _ => inl e;
     verify_reply := fun _ _ => inr green_run;
     domain_info_reply := fun _ =>
       inr (<["Forest" := "Example.COM"]> (<["Netbios domain" := "EXAMPLE"]> ∅));
     reset_reply := fun _ => inl e |}.

(** The tests of category [c] among [ts], in their order. *)
Definition in_category (c : TestCategory) (ts : list VerificationTest) : list VerificationTest :=
  filter (fun t => category t = c) ts.

(** A store holding the run of [spec_battery] with the directory down. *)
Definition store_with_results : Store :=
  with_verificationResults
    (Some (runVerification (spec_battery ldap_down) corp_config "Str0ngPass1!"))
    initial_store.

(** The categories after the tests [ts] have been pushed one by one. *)
Definition grouped (ts : list VerificationTest) : list (TestCategory * list VerificationTest) :=
  fold_left (fun categories t => push_test t categories) ts [].

(** [s.includes(a)] for a character [a]. *)
Fixpoint occurs (a : ascii) (s : string) : bool :=
  match s with
  | EmptyString => false
  | String c r => Ascii.eqb c a || occurs a r
  end.

(** The wizard just mounted at Welcome, before its status request. *)
Definition wizard_entered : World SetupWizard.Local :=
  mkWorld SetupWizard.mounted initial_store [].

(** * Authentication and routing

    ** Types ([types/auth.ts]) and the store's refs ([stores/auth.ts]) *)

Module Auth.

Record LoginRequest := mkLoginRequest {
  login_username : string;
  login_password : string;
  remember_me : option bool
}.

Record Token := mkToken {
  access_token : string;
  token_type : string;
  expires_in : Z
}.

Record User := mkUser {
  username : string;
  display_name : option string;
  email : option string;
  user_domain : string;
  groups : list string;
  is_admin : bool
}.

Record SetupStatus := mkSetupStatus {
  is_completed : bool;
  completed_at : option string;
  can_skip_to_dashboard : bool
}.

(** What a rejected request carries, as far as the store looks at it:
    [e.response?.data?.detail]. *)
Record Failure := mkFailure { detail : option string }.

(** [e.response?.data?.detail || fallback]; an empty detail is falsy. *)
Definition detail_or (e : Failure) (fallback : string) : string :=
  match detail e with
  | Some d => if truthy d then d else fallback
  | None => fallback
  end.

Inductive Request :=
| POST_login (credentials : LoginRequest)
| GET_me
| POST_logout
| GET_setup_status.

Record Backend := mkBackend {
  login_reply : list Request -> LoginRequest -> Failure + Token;
  me_reply : list Request -> Failure + User;
  logout_reply : list Request -> Failure + unit;
  setup_status_reply : list Request -> Failure + SetupStatus
}.

Record Store := mkStore {
  user : option User;
  token : option string;
  loading : bool;
  error : option string;
  setupStatus : option SetupStatus
}.

(** The store, the browser's [localStorage], the requests sent, and the
    calls of [logout] that were started without being awaited and have
    not come back yet. *)
Record World := mkWorld {
  store : Store;
  localStorage : gmap string string;
  sent : list Request;
  pending_logouts : nat
}.

(** The store as created on page load: [token] is read from
    [localStorage]. *)
Definition created (storage : gmap string string) : World :=
  {| store := mkStore None (storage !! "access_token") false None None;
     localStorage := storage;
     sent := [];
     pending_logouts := 0 |}.

Definition with_user (v : option User) (s : Store) : Store :=
  mkStore v (token s) (loading s) (error s) (setupStatus s).
Definition with_token (v : option string) (s : Store) : Store :=
  mkStore (user s) v (loading s) (error s) (setupStatus s).
Definition with_loading (v : bool) (s : Store) : Store :=
  mkStore (user s) (token s) v (error s) (setupStatus s).
Definition with_error (v : option string) (s : Store) : Store :=
  mkStore (user s) (token s) (loading s) v (setupStatus s).
Definition with_setupStatus (v : option SetupStatus) (s : Store) : Store :=
  mkStore (user s) (token s) (loading s) (error s) v.

(** ** Actions: state and exceptions, as for the setup store *)

Definition Action (A : Type) : Type := World -> (Failure + A) * World.

#[global] Instance action_ret : MRet Action := fun A a w => (inr a, w).
#[global] Instance action_bind : MBind Action := fun A B k m w =>
  match m w with
  | (inr a, w') => k a w'
  | (inl e, w') => (inl e, w')
  end.

Definition throw {A} (e : Failure) : Action A := fun w => (inl e, w).

Definition try_catch {A} (body : Action A) (handler : Failure -> Action A) : Action A :=
  fun w =>
    match body w with
    | (inr a, w') => (inr a, w')
    | (inl e, w') => handler e w'
    end.

Definition try_finally {A} (body : Action A) (fin : Action unit) : Action A :=
  fun w =>
    match body w with
    | (c, w') =>
        match fin w' with
        | (inr _, w'') => (c, w'')
        | (inl e, w'') => (inl e, w'')
        end
    end.

Definition update_store (f : Store -> Store) : Action unit :=
  fun w => (inr tt, mkWorld (f (store w)) (localStorage w) (sent w) (pending_logouts w)).

Definition read_store {A} (f : Store -> A) : Action A :=
  fun w => (inr (f (store w)), w).

(** [localStorage.setItem] and [localStorage.removeItem] *)
Definition setItem (key value : string) : Action unit :=
  fun w => (inr tt, mkWorld (store w) (<[key := value]> (localStorage w)) (sent w)
                      (pending_logouts w)).

Definition removeItem (key : string) : Action unit :=
  fun w => (inr tt, mkWorld (store w) (delete key (localStorage w)) (sent w)
                      (pending_logouts w)).

Definition request {T} (r : Request) (answer : list Request -> Failure + T) : Action T :=
  fun w =>
    let w' := mkWorld (store w) (localStorage w) (sent w ++ [r]) (pending_logouts w) in
    match answer (sent w) with
    | inl e => (inl e, w')
    | inr v => (inr v, w')
    end.

(** ** Getters *)

(** [!!token.value]: [null] and the empty string are falsy. *)
Definition has_token (s : Store) : bool :=
  match token s with
  | Some t => truthy t
  | None => false
  end.

Definition isAuthenticated (s : Store) : bool :=
  has_token s && bool_decide (is_Some (user s)).

Definition isAdmin (s : Store) : bool :=
  match user s with Some u => is_admin u | None => false end.

Definition setupCompleted (s : Store) : bool :=
  match setupStatus s with Some st => is_completed st | None => false end.

Definition canSkipToDashboard (s : Store) : bool :=
  match setupStatus s with Some st => can_skip_to_dashboard st | None => false end.

(** ** Actions of the store *)

(** The [finally] block of [logout]. *)
Definition clear_session : Action unit :=
  update_store (with_token None);;
  update_store (with_user None);;
  removeItem "access_token".

Section StoreActions.
Context (be : Backend).

(** [await authStore.logout()] *)
Definition logout : Action unit :=
  try_finally
    (try_catch (request POST_logout (logout_reply be)) (fun _ => mret tt))
    clear_session.

(** [logout()] without [await], as in [fetchUser]: the request goes out
    and the caller goes on; the [finally] block runs when the answer
    arrives, whatever it is. *)
Definition logout_started : Action unit :=
  fun w => (inr tt, mkWorld (store w) (localStorage w) (sent w ++ [POST_logout])
                      (S (pending_logouts w))).

Definition logout_settles : Action unit :=
  fun w =>
    match pending_logouts w with
    | O => (inr tt, w)
    | S n => clear_session (mkWorld (store w) (localStorage w) (sent w) n)
    end.

Definition fetchUser : Action unit :=
  t ← read_store has_token;
  if (t : bool) then
    try_catch
      (u ← request GET_me (me_reply be);
       update_store (with_user (Some u)))
      (fun _ => logout_started)
  else update_store (with_user None).

Definition checkSetupStatus : Action unit :=
  try_catch
    (st ← request GET_setup_status (setup_status_reply be);
     update_store (with_setupStatus (Some st)))
    (fun _ => mret tt).

Definition login (credentials : LoginRequest) : Action bool :=
  update_store (with_loading true);;
  update_store (with_error None);;
  try_finally
    (try_catch
       (tokenData ← request (POST_login credentials) (fun h => login_reply be h credentials);
        update_store (with_token (Some (access_token tokenData)));;
        setItem "access_token" (access_token tokenData);;
        fetchUser;;
        mret true)
       (fun e =>
          update_store (with_error (Some (detail_or e "Login failed")));;
          update_store (with_token None);;
          update_store (with_user None);;
          removeItem "access_token";;
          throw e))
    (update_store (with_loading false)).

Definition initialize : Action unit :=
  t ← read_store has_token;
  (if (t : bool) then fetchUser else mret tt);;
  checkSetupStatus.
End StoreActions.
End Auth.

(** ** The navigation guard ([router/index.ts]) *)

Module Router.

(** A resolved location: its path and the [meta] flags of the matched
    records. *)
Record Route := mkRoute {
  path : string;
  requiresAuth : bool;
  requiresNoAuth : bool
}.

(** The routes of the table. *)
Definition setup_route : Route := mkRoute "/setup" false true.
Definition login_route : Route := mkRoute "/login" false true.
Definition dashboard_route : Route := mkRoute "/dashboard" true false.

(** The record a path of the table resolves to; any other path matches
    nothing and has no [meta]. *)
Definition resolve (p : string) : Route :=
  if String.eqb p "/setup" then setup_route
  else if String.eqb p "/login" then login_route
  else if String.eqb p "/dashboard" then dashboard_route
  else mkRoute p false false.

(** What the guard passes to [next]. *)
Inductive Verdict := Proceed | Redirect (target : string).

(** The guard once the store is initialized. *)
Definition decide (to : Route) (s : Auth.Store) : Verdict :=
  let isAuthenticated := Auth.isAuthenticated s in
  let setupCompleted := Auth.setupCompleted s in
  if String.eqb (path to) "/" then
    if negb setupCompleted then Redirect "/setup"
    else if negb isAuthenticated then Redirect "/login"
    else Redirect "/dashboard"
  else if negb setupCompleted && negb (String.eqb (path to) "/setup") then Redirect "/setup"
  else if setupCompleted && String.eqb (path to) "/setup" then
    if isAuthenticated then Redirect "/dashboard" else Redirect "/login"
  else if requiresAuth to && negb isAuthenticated then Redirect "/login"
  else if requiresNoAuth to && isAuthenticated && String.eqb (path to) "/login"
  then Redirect "/dashboard"
  else Proceed.

Definition beforeEach (be : Auth.Backend) (to : Route) : Auth.Action Verdict :=
  st ← Auth.read_store Auth.setupStatus;
  (if bool_decide (st = None) then Auth.initialize be else mret tt);;
  s ← Auth.read_store id;
  mret (decide to s).

(** Where a navigation to [p] ends when the store does not change on the
    way: a redirect starts a new navigation, which passes the guard
    again.  [fuel] bounds the number of redirects followed. *)
Fixpoint settle (fuel : nat) (p : string) (s : Auth.Store) : option string :=
  match decide (resolve p) s with
  | Proceed => Some p
  | Redirect target =>
      match fuel with
      | O => None
      | S fuel' => settle fuel' target s
      end
  end.
End Router.

(** ** Example sessions of the authentication store *)

Definition admin_user : Auth.User :=
  Auth.mkUser "administrator" (Some "Domain Admin") None "CORP" ["Domain Admins"] true.

Definition admin_credentials : Auth.LoginRequest :=
  Auth.mkLoginRequest "administrator" "Str0ngPass1!" None.

(** Logins are accepted and setup is reported as completed. *)
Definition accepting_auth_backend : Auth.Backend :=
  {| Auth.login_reply := fun _ _ => inr (Auth.mkToken "tok-1" "bearer" 3600);
     Auth.me_reply := fun _ => inr admin_user;
     Auth.logout_reply := fun _ => inr tt;
     Auth.setup_status_reply := fun _ => inr (Auth.mkSetupStatus true None true) |}.

(** Every request is rejected with a detail. *)
Definition rejecting_auth_backend : Auth.Backend :=
  let e := Auth.mkFailure (Some "Incorrect username or password") in
  {| Auth.login_reply := fun _ _ => inl e;
     Auth.me_reply := fun _ => inl e;
     Auth.logout_reply := fun _ => inl e;
     Auth.setup_status_reply := fun _ => inl e |}.

(** A page loaded with a token left in [localStorage]. *)
Definition stale_token_page : Auth.World :=
  Auth.created (<["access_token" := "tok-0"]> (<["theme" := "dark"]> ∅)).

(** The store of a page that learnt, when it was loaded, that setup is not
    completed. *)
Definition setup_pending_store : Auth.Store :=
  Auth.mkStore None None false None (Some (Auth.mkSetupStatus false None false)).

(** ** DashboardLayout.vue: the user's name and initials *)

Module DashboardLayout.

(** A string-valued optional field that is present and not empty. *)
Definition present (o : option string) : option string :=
  match o with
  | Some v => if truthy v then Some v else None
  | None => None
  end.

(** [authStore.user?.display_name || authStore.user?.username || 'User'] *)
Definition displayName (s : Auth.Store) : string :=
  match Auth.user s with
  | Some u =>
      match present (Auth.display_name u) with
      | Some n => n
      | None => if truthy (Auth.username u) then Auth.username u else "User"
      end
  | None => "User"
  end.

(** [s.charAt(0)], the empty string for an empty [s]. *)
Definition charAt0 (s : string) : string :=
  match s with
  | EmptyString => ""
  | String c _ => String c ""
  end.

(** [name.split(' ').filter(p => p.length > 0)] *)
Definition words (name : string) : list string :=
  List.filter (fun p => len p >? 0) (split " " name).

Definition initials_of (name : string) : string :=
  let fallback := toUpperCase (substring 0 (Nat.min 2 (String.length name)) name) in
  match words name with
  | first :: second :: _ =>
      let firstChar := charAt0 first in
      let secondChar := charAt0 second in
      if truthy firstChar && truthy secondChar
      then toUpperCase (firstChar ++ secondChar)
      else fallback
  | _ => fallback
  end.

Definition userInitials (s : Auth.Store) : string := initials_of (displayName s).
End DashboardLayout.

(** A user whose display name is empty. *)
Definition plain_user : Auth.User :=
  Auth.mkUser "jdoe" (Some "") None "CORP" [] false.

(** * Properties *)

(** ** Running actions *)

Ltac unfold_action :=
  unfold mbind, mret, action_bind, action_ret, bind, ret, throw, try_catch,
    try_finally, update_store, read_store, update_local, read_local, request,
    discard in *.

Ltac run_action := unfold_action; cbn [fst snd local store sent] in *.

(** ** Step navigation *)

Section Navigation.
Context {L : Type}.
Implicit Types w : World L.

Lemma nextStep_spec w :
  nextStep w =
    (Returned tt,
     mkWorld (local w)
       (if currentStep (store w) <? 7
        then with_currentStep (currentStep (store w) + 1) (store w)
        else store w)
       (sent w)).
Proof. reflexivity. Qed.

Lemma previousStep_spec w :
  previousStep w =
    (Returned tt,
     mkWorld (local w)
       (if currentStep (store w) >? 0
        then with_currentStep (currentStep (store w) - 1) (store w)
        else store w)
       (sent w)).
Proof. reflexivity. Qed.

Lemma nextStep_currentStep w :
  currentStep (store (nextStep w).2) =
    if currentStep (store w) <? 7 then currentStep (store w) + 1 else currentStep (store w).
Proof. rewrite nextStep_spec. cbn. by destruct (_ <? 7). Qed.

Lemma previousStep_currentStep w :
  currentStep (store (previousStep w).2) =
    if currentStep (store w) >? 0 then currentStep (store w) - 1 else currentStep (store w).
Proof. rewrite previousStep_spec. cbn. by destruct (_ >? 0). Qed.

Lemma navigate_in_range ev w :
  step_in_range (store w) -> step_in_range (store (navigate ev w).2).
Proof.
  unfold step_in_range. intros Hr. destruct ev; cbn [navigate].
  - rewrite nextStep_currentStep. destruct (Z.ltb_spec (currentStep (store w)) 7); lia.
  - rewrite previousStep_currentStep.
    destruct (currentStep (store w) >? 0) eqn:E; lia.
Qed.

Lemma navigate_all_in_range evs : forall w,
  step_in_range (store w) -> step_in_range (store (navigate_all evs w)).
Proof.
  induction evs as [|ev evs IH]; intros w Hr; cbn; [done|].
  apply IH. by apply navigate_in_range.
Qed.

(** C7: [nextStep] adds one to [currentStep] below 7 and leaves 7 as it
    is, [previousStep] subtracts one above 0 and leaves 0 as it is, and a
    step between 0 (Welcome) and 7 (Complete) stays there under any
    sequence of the two. *)
Theorem next_previous_one_step (w : World L) :
  (currentStep (store w) < 7 ->
     currentStep (store (nextStep w).2) = currentStep (store w) + 1) /\
  (currentStep (store w) = 7 -> currentStep (store (nextStep w).2) = 7) /\
  (currentStep (store w) > 0 ->
     currentStep (store (previousStep w).2) = currentStep (store w) - 1) /\
  (currentStep (store w) = 0 -> currentStep (store (previousStep w).2) = 0) /\
  (forall evs, step_in_range (store w) -> step_in_range (store (navigate_all evs w))).
Proof.
  rewrite nextStep_currentStep, previousStep_currentStep.
  split; [|split; [|split; [|split]]].
  - intros H. destruct (Z.ltb_spec (currentStep (store w)) 7); lia.
  - intros ->. reflexivity.
  - intros H. destruct (currentStep (store w) >? 0) eqn:E; lia.
  - intros ->. reflexivity.
  - intros evs Hr. by apply navigate_all_in_range.
Qed.
End Navigation.

Lemma next_previous_one_step_witness :
  currentStep (store (nextStep (view tt initial_world)).2) = 1 /\
  step_in_range (store (navigate_all [Next; Next; Previous] (view tt initial_world))).
Proof.
  pose proof (next_previous_one_step (view tt initial_world)) as (Hn & _ & _ & _ & Hr).
  split.
  - apply Hn. cbn. lia.
  - apply Hr. unfold step_in_range. cbn. lia.
Defined.

(** ** Failure and completion of the store's backend actions *)

Section StoreFailure.
Context {L : Type} (be : Backend) (w : World L).

Lemma checkStatus_throws e :
  status_reply be (sent w) = inl e -> fails_cleanly (checkStatus be) w e.
Proof.
  intros H. unfold fails_cleanly, checkStatus. run_action.
  rewrite H. cbn. eauto.
Qed.

Lemma checkPrerequisites_throws e :
  prerequisites_reply be (sent w) = inl e -> fails_cleanly (checkPrerequisites be) w e.
Proof.
  intros H. unfold fails_cleanly, checkPrerequisites. run_action.
  rewrite H. cbn. eauto.
Qed.

Lemma validateConfiguration_throws e :
  validate_reply be (sent w) (domainConfig (store w)) = inl e ->
  fails_cleanly (validateConfiguration be) w e.
Proof.
  intros H. unfold fails_cleanly, validateConfiguration. run_action.
  cbn. rewrite H. cbn. eauto.
Qed.

Lemma provisionDomain_throws e :
  provision_reply be (sent w) (domainConfig (store w)) = inl e ->
  fails_cleanly (provisionDomain be) w e.
Proof.
  intros H. unfold fails_cleanly, provisionDomain. run_action.
  cbn. rewrite H. cbn. eauto.
Qed.

Lemma runVerificationTests_throws e :
  verify_reply be (sent w) (domainConfig (store w)) = inl e ->
  fails_cleanly (runVerificationTests be) w e.
Proof.
  intros H. unfold fails_cleanly, runVerificationTests. run_action.
  cbn. rewrite H. cbn. eauto.
Qed.

(** [resetDomain] makes two calls: the reset itself and, through
    [checkStatus], the status refresh. *)
Lemma resetDomain_throws_at_reset e :
  reset_reply be (sent w) = inl e -> fails_cleanly (resetDomain be) w e.
Proof.
  intros H. unfold fails_cleanly, resetDomain. run_action.
  rewrite H. cbn. eauto.
Qed.

Lemma resetDomain_throws_at_status ok e :
  reset_reply be (sent w) = inr ok ->
  status_reply be (sent w ++ [POST_reset]) = inl e ->
  fails_cleanly (resetDomain be) w e.
Proof.
  intros H1 H2. unfold fails_cleanly, resetDomain, checkStatus. run_action.
  rewrite H1. cbn. rewrite H2. cbn. eauto.
Qed.

Lemma loading_cleared :
  not_loading_after (checkStatus be) w /\
  not_loading_after (checkPrerequisites be) w /\
  not_loading_after (validateConfiguration be) w /\
  not_loading_after (provisionDomain be) w /\
  not_loading_after (runVerificationTests be) w /\
  not_loading_after (resetDomain be) w.
Proof.
  unfold not_loading_after, checkStatus, checkPrerequisites, validateConfiguration,
    provisionDomain, runVerificationTests, resetDomain, resetWizard, checkStatus.
  run_action. cbn.
  repeat split.
  - by destruct (status_reply be (sent w)).
  - by destruct (prerequisites_reply be (sent w)).
  - by destruct (validate_reply be (sent w) _).
  - by destruct (provision_reply be (sent w) _).
  - by destruct (verify_reply be (sent w) _).
  - destruct (reset_reply be (sent w)); [done|]. cbn.
    by destruct (status_reply be _).
Qed.

(** C9: when the API call under a backend action of the store throws, the
    cached results are left as they were, [error] is set to a message
    and the thrown value is re-thrown; and [loading] is false once the
    action has completed, whether it succeeded or failed. *)
Theorem backend_actions_fail_cleanly :
  (forall e, status_reply be (sent w) = inl e -> fails_cleanly (checkStatus be) w e) /\
  (forall e, prerequisites_reply be (sent w) = inl e ->
             fails_cleanly (checkPrerequisites be) w e) /\
  (forall e, validate_reply be (sent w) (domainConfig (store w)) = inl e ->
             fails_cleanly (validateConfiguration be) w e) /\
  (forall e, provision_reply be (sent w) (domainConfig (store w)) = inl e ->
             fails_cleanly (provisionDomain be) w e) /\
  (forall e, verify_reply be (sent w) (domainConfig (store w)) = inl e ->
             fails_cleanly (runVerificationTests be) w e) /\
  (forall e, reset_reply be (sent w) = inl e \/
             ((exists ok, reset_reply be (sent w) = inr ok) /\
              status_reply be (sent w ++ [POST_reset]) = inl e) ->
             fails_cleanly (resetDomain be) w e) /\
  (not_loading_after (checkStatus be) w /\
   not_loading_after (checkPrerequisites be) w /\
   not_loading_after (validateConfiguration be) w /\
   not_loading_after (provisionDomain be) w /\
   not_loading_after (runVerificationTests be) w /\
   not_loading_after (resetDomain be) w).
Proof.
  split; [exact checkStatus_throws|].
  split; [exact checkPrerequisites_throws|].
  split; [exact validateConfiguration_throws|].
  split; [exact provisionDomain_throws|].
  split; [exact runVerificationTests_throws|].
  split; [|exact loading_cleared].
  intros e [H|[Hok H]].
  - by apply resetDomain_throws_at_reset.
  - destruct Hok as [ok Hok]. by eapply resetDomain_throws_at_status.
Qed.
End StoreFailure.

Lemma backend_actions_fail_cleanly_witness :
  fails_cleanly (provisionDomain unreachable_backend) (view tt initial_world)
    (ErrorObject "Network Error").
Proof.
  destruct (backend_actions_fail_cleanly unreachable_backend (view tt initial_world))
    as (_ & _ & _ & H & _).
  apply H. reflexivity.
Defined.

(** ** Resetting the wizard *)

Section ResetWizard.
Context {L : Type} (be : Backend) (w : World L).

Lemma resetWizard_spec :
  resetWizard w =
    (Returned tt,
     mkWorld (local w)
       (mkStore 0 (setupStatus (store w)) None None None (loading (store w)) None
          (domainConfig (store w)))
       (sent w)).
Proof. reflexivity. Qed.

(** C10: [resetWizard], also run by a [resetDomain] that succeeds, sets
    [currentStep] to Welcome (0), clears [prerequisites],
    [verificationResults], [provisionResponse] and [error], and leaves
    [domainConfig], the administrator password included, as it was. *)
Theorem resetWizard_keeps_domainConfig :
  wizard_reset (store w) (store (resetWizard w).2) /\
  (forall ok st,
     reset_reply be (sent w) = inr ok ->
     status_reply be (sent w ++ [POST_reset]) = inr st ->
     (resetDomain be w).1 = Returned ok /\
     wizard_reset (store w) (store (resetDomain be w).2)).
Proof.
  split.
  - rewrite resetWizard_spec. by repeat split.
  - intros ok st H1 H2.
    unfold resetDomain, checkStatus, resetWizard. run_action.
    rewrite H1. cbn. rewrite H2. cbn. by repeat split.
Qed.
End ResetWizard.

Lemma resetWizard_keeps_domainConfig_witness :
  admin_password
    (domainConfig (store (resetDomain reset_backend (mkWorld tt busy_store [])).2))
  = "Str0ngPass1!".
Proof.
  destruct (resetWizard_keeps_domainConfig reset_backend (mkWorld tt busy_store []))
    as [_ H].
  destruct (H (true, "Domain configuration reset") (mkSetupStatusResponse false None None)
              eq_refl eq_refl) as (_ & _ & _ & _ & _ & _ & Hc).
  rewrite Hc. reflexivity.
Defined.

(** ** Provisioning more than once *)

Section Provisioning.
Context {L : Type} (be : Backend) (w : World L).

(** What a call of the store's [provisionDomain] does, in full. *)
Lemma provisionDomain_spec :
  provisionDomain be w =
    let cfg := domainConfig (store w) in
    let s0 := with_error None (with_loading true (store w)) in
    let h := (sent w ++ [POST_provision cfg])%list in
    match provision_reply be (sent w) cfg with
    | inr r =>
        (Returned r,
         mkWorld (local w) (with_loading false (with_provisionResponse (Some r) s0)) h)
    | inl e =>
        (Threw e,
         mkWorld (local w)
           (with_loading false
              (with_error (Some (message_or e "Domain provisioning failed")) s0)) h)
    end.
Proof.
  unfold provisionDomain. run_action. cbn.
  by destruct (provision_reply be (sent w) _).
Qed.
End Provisioning.

Lemma requests_app kind (h1 h2 : list Request) :
  requests kind (h1 ++ h2) = (requests kind h1 ++ requests kind h2)%list.
Proof. unfold requests. apply List.filter_app. Qed.

Section ProvisionStepGuard.
Context (be : Backend) (w : World ProvisionStep.Local).

Lemma provisionDomain_sends :
  sent (provisionDomain be w).2
  = (sent w ++ [POST_provision (domainConfig (store w))])%list.
Proof.
  rewrite provisionDomain_spec. cbn zeta.
  by destruct (provision_reply be (sent w) _).
Qed.

Lemma onMounted_provisioned :
  isProvisioned (store w) = true ->
  sent (ProvisionStep.onMounted be w).2 = sent w /\
  store (ProvisionStep.onMounted be w).2 = store w.
Proof.
  intros H. unfold ProvisionStep.onMounted. run_action. by rewrite H.
Qed.

Lemma startProvisioning_sends :
  sent (ProvisionStep.startProvisioning be w).2
  = (sent w ++ [POST_provision (domainConfig (store w))])%list.
Proof.
  unfold ProvisionStep.startProvisioning, provisionDomain, ProvisionStep.show_lines.
  run_action. cbn.
  destruct (provision_reply be (sent w) _) as [e|r]; cbn; [done|].
  destruct (prov_status r); cbn; try done.
  - destruct (output r) as [t|]; cbn; [|done]. by destruct (truthy t).
  - destruct (prov_error r) as [t|]; cbn; [|done]. by destruct (truthy t).
Qed.

End ProvisionStepGuard.



(** ** The administrator password in the store *)

Section PasswordKept.
Context {L : Type} (be : Backend).

Lemma runVerificationTests_spec (w : World L) :
  runVerificationTests be w =
    let cfg := domainConfig (store w) in
    let s0 := with_error None (with_loading true (store w)) in
    let h := (sent w ++ [POST_verify cfg])%list in
    match verify_reply be (sent w) cfg with
    | inr r =>
        (Returned r,
         mkWorld (local w) (with_loading false (with_verificationResults (Some r) s0)) h)
    | inl e =>
        (Threw e,
         mkWorld (local w)
           (with_loading false
              (with_error (Some (message_or e "Verification tests failed")) s0)) h)
    end.
Proof.
  unfold runVerificationTests. run_action. cbn.
  by destruct (verify_reply be (sent w) _).
Qed.
End PasswordKept.

Lemma handle_keeps_domainConfig be ev (w : World unit) :
  writes_config ev = false ->
  domainConfig (store (handle be ev w).2) = domainConfig (store w).
Proof.
  intros Hev. destruct ev; try discriminate Hev; cbn [handle];
    unfold checkStatus, checkPrerequisites, validateConfiguration, provisionDomain,
      runVerificationTests, nextStep, previousStep, goToStep, resetWizard, resetDomain,
      skipToVerification, checkStatus; run_action; cbn.
  - by destruct (status_reply be _).
  - by destruct (prerequisites_reply be _).
  - by destruct (validate_reply be _ _).
  - by destruct (provision_reply be _ _).
  - by destruct (verify_reply be _ _).
  - by destruct (_ <? 7).
  - by destruct (_ >? 0).
  - done.
  - done.
  - destruct (reset_reply be _); [done|]. cbn. by destruct (status_reply be _).
  - done.
Qed.




(** ** VerificationStep: preparing the configuration *)

Section PrepareConfig.
Context (be : Backend).
Implicit Types w : World VerificationStep.Local.

Import VerificationStep.

Lemma populate_admin_password info c :
  admin_password (populate info c) = admin_password c.
Proof.
  unfold populate, when_present. cbn.
  repeat (match goal with
          | |- context [info !! ?k] => destruct (info !! k) as [?v|]
          | |- context [truthy ?v] => destruct (truthy v)
          end; cbn); reflexivity.
Qed.

(** [checkAndPrepareConfig], case by case. *)
Lemma checkAndPrepareConfig_spec w :
  checkAndPrepareConfig be w =
    let cfg := domainConfig (store w) in
    let ask (c : DomainConfig) (l : Local) :=
      with_needsPassword (len (admin_password c) <? 8) l in
    if isProvisioned (store w) && is_placeholder cfg then
      match domain_info_reply be (sent w) with
      | inr info =>
          (Returned tt,
           mkWorld (ask cfg (local w))
             (with_domainConfig (populate info cfg) (store w))
             (sent w ++ [GET_domain_info]))
      | inl e =>
          (Returned tt,
           mkWorld
             (with_needsPassword true
                (with_passwordError
                   ("Failed to load domain info: " ++ message_or e "Unknown error")
                   (local w)))
             (store w)
             (sent w ++ [GET_domain_info]))
      end
    else (Returned tt, mkWorld (ask cfg (local w)) (store w) (sent w)).
Proof.
  unfold checkAndPrepareConfig, check_password_needed. run_action. cbn zeta.
  destruct (isProvisioned (store w)); cbn.
  - destruct (is_placeholder _); cbn.
    + destruct (domain_info_reply be (sent w)); cbn -[populate]; [done|].
      rewrite populate_admin_password. by destruct (_ <? 8).
    + by destruct (_ <? 8).
  - by destruct (_ <? 8).
Qed.
End PrepareConfig.
Section RunTests.
Context (be : Backend).
Implicit Types w : World VerificationStep.Local.

Import VerificationStep.

Lemma checkAndPrepareConfig_returns w :
  (checkAndPrepareConfig be w).1 = Returned tt.
Proof.
  rewrite checkAndPrepareConfig_spec. cbn zeta.
  destruct (_ && _); [|done]. by destruct (domain_info_reply be _).
Qed.

Lemma checkAndPrepareConfig_frame w :
  let w1 := (checkAndPrepareConfig be w).2 in
  admin_password (domainConfig (store w1)) = admin_password (domainConfig (store w)) /\
  requests is_verify (sent w1) = requests is_verify (sent w) /\
  verificationResults (store w1) = verificationResults (store w) /\
  adminPassword (local w1) = adminPassword (local w) /\
  running (local w1) = running (local w).
Proof.
  rewrite checkAndPrepareConfig_spec. cbn zeta.
  destruct (_ && _); [|done].
  destruct (domain_info_reply be _); cbn -[populate];
    rewrite ?populate_admin_password, ?requests_app; cbn;
    by rewrite ?app_nil_r.
Qed.

(** [runTests] after the preparation of the configuration. *)
Lemma runTests_spec w :
  runTests be w =
    let w1 := (checkAndPrepareConfig be w).2 in
    let c := domainConfig (store w1) in
    if negb (truthy (admin_password c)) || (len (admin_password c) <? 8) then
      (Returned tt,
       mkWorld
         (with_passwordError "Administrator password is required for verification tests"
            (with_needsPassword true (local w1)))
         (store w1) (sent w1))
    else if is_placeholder c then
      (Returned tt,
       mkWorld
         (with_passwordError
            "Unable to load domain configuration. Please check if domain is provisioned."
            (local w1))
         (store w1) (sent w1))
    else
      let r := runVerificationTests be
                 (mkWorld (with_running true (local w1)) (store w1) (sent w1)) in
      (Returned tt, mkWorld (with_running false (local r.2)) (store r.2) (sent r.2)).
Proof.
  unfold runTests.
  pose proof (checkAndPrepareConfig_returns w) as Hret.
  unfold_action.
  destruct (checkAndPrepareConfig be w) as [c w1]. cbn in Hret. subst c.
  cbn [fst snd local store sent]. cbv zeta.
  destruct (_ || _); [done|].
  destruct (is_placeholder _); [done|].
  fold (@update_store Local). fold (@read_store Local).
  rewrite runVerificationTests_spec. cbn zeta.
  by destruct (verify_reply be _ _).
Qed.

Lemma runTests_short_password w :
  password_missing w ->
  let r := runTests be w in
  r.1 = Returned tt /\
  requests is_verify (sent r.2) = requests is_verify (sent w) /\
  verificationResults (store r.2) = verificationResults (store w) /\
  admin_password (domainConfig (store r.2)) = admin_password (domainConfig (store w)) /\
  adminPassword (local r.2) = adminPassword (local w) /\
  needsPassword (local r.2) = true /\
  passwordError (local r.2) = "Administrator password is required for verification tests".
Proof.
  unfold password_missing. intros Hshort. cbv zeta.
  rewrite runTests_spec. cbv zeta.
  destruct (checkAndPrepareConfig_frame w) as (Hpw & Hreq & Hres & Hadm & _).
  rewrite Hpw.
  replace (len (admin_password (domainConfig (store w))) <? 8) with true
    by (symmetry; apply Z.ltb_lt; exact Hshort).
  rewrite orb_true_r. cbn. by repeat split.
Qed.
End RunTests.
(** ** VerificationStep: the password prompt *)

Section PasswordPrompt.
Context (be : Backend).
Implicit Types w : World VerificationStep.Local.

Import VerificationStep.

Lemma submitPassword_short w :
  len (adminPassword (local w)) < 8 ->
  submitPassword be w =
    (Returned tt,
     mkWorld
       (with_passwordError "Password must be at least 8 characters"
          (with_passwordError "" (local w)))
       (store w) (sent w)).
Proof.
  intros H. unfold submitPassword. run_action. cbn.
  by replace (len (adminPassword (local w)) <? 8) with true
    by (symmetry; by apply Z.ltb_lt).
Qed.

Lemma submitPassword_long w :
  8 <= len (adminPassword (local w)) ->
  submitPassword be w = runTests be (password_accepted w).
Proof.
  intros H. unfold submitPassword. run_action. cbn.
  by replace (len (adminPassword (local w)) <? 8) with false
    by (symmetry; by apply Z.ltb_ge).
Qed.

(** While the configuration's password and the typed one are short, a
    step at the prompt sends no verification request and keeps both
    short. *)
Lemma prompt_step_blocked ev w :
  types_short ev ->
  password_missing w ->
  len (adminPassword (local w)) < 8 ->
  let w' := (prompt_step be ev w).2 in
  password_missing w' /\
  len (adminPassword (local w')) < 8 /\
  requests is_verify (sent w') = requests is_verify (sent w) /\
  verificationResults (store w') = verificationResults (store w) /\
  (needsPassword (local w) = true -> needsPassword (local w') = true).
Proof.
  intros Hev Hcfg Htyped. cbv zeta. destruct ev as [v| |]; cbn [prompt_step].
  - cbn in Hev. unfold type_password. run_action. by repeat split.
  - rewrite submitPassword_short by done. by repeat split.
  - unfold click_run_again. destruct (running (local w)); [by repeat split|].
    destruct (runTests_short_password be w Hcfg) as (_ & Hreq & Hres & Hpw & Hadm & Hn & _).
    unfold password_missing in *. rewrite Hpw, Hadm. by repeat split.
Qed.

Lemma prompt_steps_blocked evs : forall w,
  Forall types_short evs ->
  password_missing w ->
  len (adminPassword (local w)) < 8 ->
  let w' := prompt_steps be evs w in
  password_missing w' /\
  requests is_verify (sent w') = requests is_verify (sent w) /\
  verificationResults (store w') = verificationResults (store w) /\
  (needsPassword (local w) = true -> needsPassword (local w') = true).
Proof.
  induction evs as [|ev evs IH]; intros w Hevs Hcfg Htyped; cbv zeta.
  - by repeat split.
  - inversion Hevs as [|? ? Hev Hrest]; subst. cbn [prompt_steps fold_left].
    destruct (prompt_step_blocked ev w Hev Hcfg Htyped) as (Hc & Ht & Hreq & Hres & Hn).
    destruct (IH _ Hrest Hc Ht) as (Hc' & Hreq' & Hres' & Hn').
    fold (prompt_steps be evs (prompt_step be ev w).2).
    repeat split; [done|congruence|congruence|tauto].
Qed.

(** C5: with an [admin_password] shorter than 8 characters, [runTests]
    sends no verification request and shows the password prompt
    ([needsPassword]) with a message instead of skipping; at the prompt,
    nothing the user does sends one as long as no password of at least 8
    characters is typed; and a submitted password of at least 8
    characters is stored in the configuration, closes the prompt and
    goes on to [runTests]. *)
Theorem verification_waits_for_password w :
  (password_missing w ->
     let r := runTests be w in
     requests is_verify (sent r.2) = requests is_verify (sent w) /\
     verificationResults (store r.2) = verificationResults (store w) /\
     needsPassword (local r.2) = true /\
     passwordError (local r.2)
       = "Administrator password is required for verification tests") /\
  (forall evs,
     password_missing w ->
     len (adminPassword (local w)) < 8 ->
     Forall types_short evs ->
     let w' := prompt_steps be evs w in
     password_missing w' /\
     requests is_verify (sent w') = requests is_verify (sent w) /\
     (needsPassword (local w) = true -> needsPassword (local w') = true)) /\
  (8 <= len (adminPassword (local w)) ->
     submitPassword be w = runTests be (password_accepted w) /\
     admin_password (domainConfig (store (password_accepted w)))
       = adminPassword (local w) /\
     needsPassword (local (password_accepted w)) = false).
Proof.
  split; [|split].
  - intros H. cbv zeta.
    destruct (runTests_short_password be w H) as (_ & ? & ? & _ & _ & ? & ?).
    by repeat split.
  - intros evs Hcfg Htyped Hevs. cbv zeta.
    destruct (prompt_steps_blocked evs w Hevs Hcfg Htyped) as (? & ? & _ & ?).
    by repeat split.
  - intros H. split; [by apply submitPassword_long|]. by split.
Qed.
End PasswordPrompt.

Lemma verification_waits_for_password_witness :
  requests is_verify
    (sent (prompt_steps live_domain_backend
             [RunTestsAgain; TypePassword "short"; SubmitPassword]
             verification_entered))
  = [] /\
  VerificationStep.needsPassword
    (local (VerificationStep.runTests live_domain_backend verification_entered).2) = true.
Proof.
  destruct (verification_waits_for_password live_domain_backend verification_entered)
    as (Hrun & Hprompt & _).
  assert (Hmissing : password_missing verification_entered)
    by (unfold password_missing; vm_compute; reflexivity).
  split.
  - destruct (Hprompt [RunTestsAgain; TypePassword "short"; SubmitPassword] Hmissing)
      as (_ & Hreq & _).
    + vm_compute; reflexivity.
    + repeat constructor; vm_compute; reflexivity.
    + rewrite Hreq. reflexivity.
  - destruct (Hrun Hmissing) as (_ & _ & Hn & _). exact Hn.
Defined.
(** ** VerificationStep: introspection of a provisioned domain *)

Section Introspection.
Context (be : Backend).
Implicit Types w : World VerificationStep.Local.

Import VerificationStep.

Lemma runTests_placeholder w :
  is_placeholder (domainConfig (store (checkAndPrepareConfig be w).2)) = true ->
  requests is_verify (sent (runTests be w).2) = requests is_verify (sent w) /\
  verificationResults (store (runTests be w).2) = verificationResults (store w).
Proof.
  intros Hph. rewrite runTests_spec. cbv zeta.
  destruct (checkAndPrepareConfig_frame be w) as (_ & Hreq & Hres & _).
  rewrite Hph. by destruct (_ || _).
Qed.

End Introspection.


(** ** DomainConfigStep: validity and the NetBIOS name *)

Lemma take_string_length n s : (String.length (DomainConfigStep.take_string n s) <= n)%nat.
Proof.
  revert s. induction n as [|n IH]; intros [|c r]; cbn; try lia.
  apply le_n_S, IH.
Qed.

(** What is typed into the NetBIOS field stays within the limit. *)
Lemma type_domain_within_limit v (w : World DomainConfigStep.Local) :
  netbios_within_limit (domainConfig (store (DomainConfigStep.type_domain v w).2)).
Proof.
  unfold netbios_within_limit, DomainConfigStep.type_domain, len. run_action.
  cbn -[DomainConfigStep.take_string].
  pose proof (take_string_length DomainConfigStep.maxlength v) as H.
  unfold DomainConfigStep.maxlength in *. lia.
Qed.

(** C8 fails on the code: after the autofill from a DNS name with a long
    first label, [isValid] accepts a configuration whose NetBIOS domain
    has 20 characters, and the Continue button advances the wizard. *)
Lemma isValid_accepts_long_netbios :
  let w := (long_name_entry domain_config_entered).2 in
  domain (domainConfig (store w)) = "AVERYLONGCOMPANYNAME" /\
  DomainConfigStep.isValid (domainConfig (store w)) (local w) = true /\
  ~ netbios_within_limit (domainConfig (store w)) /\
  currentStep (store (DomainConfigStep.click_continue w).2) = DNS_CONFIG.
Proof.
  cbv zeta. split; [reflexivity|]. split; [reflexivity|]. split; [|reflexivity].
  unfold netbios_within_limit. vm_compute. intros H. by apply H.
Qed.

(** ** The Prerequisites step cannot be passed with a failed check *)

Lemma all_passed_iff battery :
  all_passed (getPrerequisites battery) = true <-> no_failed_check (getPrerequisites battery).
Proof.
  unfold no_failed_check, getPrerequisites. cbn [all_passed checks].
  induction (map isolate battery) as [|c cs IH]; cbn.
  - split; [constructor|done].
  - rewrite andb_true_iff, IH, Forall_cons. unfold not_failed.
    rewrite negb_true_iff, bool_decide_eq_false. done.
Qed.

Section Sessions.
Context (be : Backend) (Hchecker : prerequisites_from_checker be).

Lemma handle_batch_from_checker ev (w : World unit) :
  batch_from_checker (store w) -> batch_from_checker (store (handle be ev w).2).
Proof.
  unfold batch_from_checker. intros Hw r.
  destruct ev; cbn [handle];
    unfold checkStatus, checkPrerequisites, validateConfiguration, provisionDomain,
      runVerificationTests, nextStep, previousStep, goToStep, resetWizard, resetDomain,
      skipToVerification, checkStatus; run_action; cbn.
  - destruct (status_reply be _); cbn; apply Hw.
  - destruct (prerequisites_reply be _) as [e|r'] eqn:E; cbn; [apply Hw|].
    intros [= <-]. by eapply Hchecker.
  - destruct (validate_reply be _ _); cbn; apply Hw.
  - destruct (provision_reply be _ _); cbn; apply Hw.
  - destruct (verify_reply be _ _); cbn; apply Hw.
  - destruct (_ <? 7); cbn; apply Hw.
  - destruct (_ >? 0); cbn; apply Hw.
  - apply Hw.
  - done.
  - destruct (reset_reply be _); cbn; [apply Hw|].
    destruct (status_reply be _); cbn; [apply Hw|done].
  - apply Hw.
  - apply Hw.
Qed.

Lemma fold_batch_from_checker evs : forall w : World unit,
  batch_from_checker (store w) ->
  batch_from_checker (store (fold_left (fun w ev => (handle be ev w).2) evs w)).
Proof.
  induction evs as [|ev evs IH]; intros w Hw; cbn [fold_left]; [done|].
  apply IH. by apply handle_batch_from_checker.
Qed.

Lemma session_batch_from_checker evs : batch_from_checker (store (session be evs)).
Proof. apply fold_batch_from_checker. intros r. discriminate. Qed.

End Sessions.

Lemma checker_backend_from_checker : prerequisites_from_checker checker_backend.
Proof. intros h r [= <-]. by exists warning_battery. Qed.


(** ** The verdict of a verification run *)

Lemma count_status_nil st : count_status st [] = 0.
Proof. reflexivity. Qed.

Lemma count_status_cons st t ts :
  count_status st (t :: ts)
  = (if decide (status t = st) then 1 else 0) + count_status st ts.
Proof.
  unfold count_status. rewrite filter_cons.
  destruct (decide (status t = st)); cbn [length]; lia.
Qed.

Lemma count_status_app st ts1 ts2 :
  count_status st (ts1 ++ ts2) = count_status st ts1 + count_status st ts2.
Proof. unfold count_status. rewrite filter_app, length_app. lia. Qed.

Lemma count_status_nonneg st ts : 0 <= count_status st ts.
Proof. unfold count_status. lia. Qed.

Section Engine.
Context (cfg : DomainConfig) (password : string).

Lemma run_probe_status p :
  status (run_probe cfg password p) = test_passed \/
  status (run_probe cfg password p) = test_failed.
Proof.
  unfold run_probe. destruct (probe_run p cfg password) as [[|] ? ?|?]; cbn; auto.
Qed.

Lemma finished_nil : finished [].
Proof. split; cbn; [reflexivity|]. rewrite !count_status_nil. lia. Qed.

Lemma finished_app ts1 ts2 : finished ts1 -> finished ts2 -> finished (ts1 ++ ts2).
Proof.
  intros [H1 S1] [H2 S2]. split.
  - rewrite !count_status_app, length_app. lia.
  - rewrite !count_status_app.
    pose proof (count_status_nonneg test_skipped ts1).
    pose proof (count_status_nonneg test_skipped ts2).
    pose proof (count_status_nonneg test_failed ts1).
    pose proof (count_status_nonneg test_failed ts2).
    lia.
Qed.

(** Probes that were run: none is skipped. *)
Lemma probes_run ps :
  let ts := map (run_probe cfg password) ps in
  count_status test_skipped ts = 0 /\
  count_status test_passed ts + count_status test_failed ts = Z.of_nat (length ts).
Proof.
  cbv zeta. induction ps as [|p ps [IH1 IH2]]; [done|].
  cbn [map]. rewrite !count_status_cons. cbn [length].
  destruct (run_probe_status p) as [-> | ->];
    repeat (destruct (decide _) as [?|?]; try congruence); lia.
Qed.

(** Probes that were skipped: none passed or failed. *)
Lemma probes_skipped ps :
  let ts := map skip_probe ps in
  count_status test_passed ts = 0 /\
  count_status test_failed ts = 0 /\
  count_status test_skipped ts = Z.of_nat (length ts).
Proof.
  cbv zeta. induction ps as [|p ps (IH1 & IH2 & IH3)]; [done|].
  cbn [map]. rewrite !count_status_cons. cbn [length skip_probe status].
  repeat (destruct (decide _) as [?|?]; try congruence); lia.
Qed.

Lemma run_entry_finished e : finished (run_entry cfg password e).
Proof.
  destruct e as [p|lead deps]; cbn [run_entry].
  - split; rewrite !count_status_cons, !count_status_nil; cbn [length];
      destruct (run_probe_status p) as [-> | ->];
      repeat (destruct (decide _) as [?|?]; try congruence); lia.
  - case_bool_decide as Hlead.
    + destruct (probes_run deps) as [Hs Hsum].
      split; rewrite !count_status_cons; cbn [length]; rewrite Hlead;
        repeat (destruct (decide _) as [?|?]; try congruence); lia.
    + destruct (probes_skipped deps) as (Hp & Hf & Hs).
      destruct (run_probe_status lead) as [Hl | Hl]; [done|].
      split; rewrite !count_status_cons; cbn [length]; rewrite Hl;
        repeat (destruct (decide _) as [?|?]; try congruence); lia.
Qed.

Lemma run_entry_nonempty e : (0 < length (run_entry cfg password e))%nat.
Proof.
  destruct e; cbn [run_entry]; [cbn; lia|]. case_bool_decide; cbn; lia.
Qed.

Lemma battery_finished battery : finished (flat_map (run_entry cfg password) battery).
Proof.
  induction battery as [|e es IH]; cbn [flat_map]; [apply finished_nil|].
  apply finished_app; [apply run_entry_finished|exact IH].
Qed.

Lemma battery_nonempty battery :
  battery <> [] -> (0 < length (flat_map (run_entry cfg password) battery))%nat.
Proof.
  destruct battery as [|e es]; [done|]. intros _. cbn [flat_map].
  rewrite length_app. pose proof (run_entry_nonempty e). lia.
Qed.

(** C2: for every run that [runVerification] produces from a battery
    with at least one check, the passed, failed and skipped counts add
    up to the total, and the verdict is passed iff nothing failed and
    nothing was skipped, partial iff something passed and something
    failed, and failed iff nothing passed. *)
Theorem runVerification_verdict battery :
  battery <> [] ->
  counts_add_up (runVerification battery cfg password) /\
  verdict_follows_rule (runVerification battery cfg password).
Proof.
  intros Hne.
  unfold counts_add_up, verdict_follows_rule, rule_holds, runVerification, aggregate.
  cbn [passed failed skipped total_tests overall_status].
  destruct (battery_finished battery) as [Hsum Hskip].
  pose proof (battery_nonempty battery Hne) as Hlen.
  set (ts := flat_map (run_entry cfg password) battery) in *.
  pose proof (count_status_nonneg test_passed ts) as Hp.
  pose proof (count_status_nonneg test_failed ts) as Hf.
  pose proof (count_status_nonneg test_skipped ts) as Hs.
  split; [exact Hsum|].
  unfold overallStatus.
  destruct (Z.eqb_spec (count_status test_failed ts) 0) as [Ef|Ef];
    destruct (Z.eqb_spec (count_status test_skipped ts) 0) as [Es|Es];
    destruct (Z.gtb_spec (count_status test_passed ts) 0) as [Ep|Ep];
    destruct (Z.gtb_spec (count_status test_failed ts) 0) as [Ef'|Ef'];
    cbn [andb]; repeat split; intros; try discriminate; try lia.
Qed.
End Engine.

(** The rule is one for finished runs: for counts that no run of the
    engine has (a skip without a failure, or no test at all) no verdict
    satisfies its three clauses together. *)
Remark rule_holds_not_total :
  (forall o, ~ rule_holds o 1 0 1) /\ (forall o, ~ rule_holds o 0 0 0).
Proof.
  split; intros o (Hp & Hpart & Hf); destruct o.
  - destruct (proj1 Hp eq_refl) as [_ ?]. discriminate.
  - pose proof (proj1 Hf eq_refl). discriminate.
  - destruct (proj1 Hpart eq_refl) as [_ ?]. lia.
  - pose proof (proj2 Hf eq_refl). discriminate.
  - pose proof (proj2 Hp (conj eq_refl eq_refl)). discriminate.
  - destruct (proj1 Hpart eq_refl) as [? _]. lia.
Qed.

Lemma runVerification_verdict_witness :
  let r := runVerification (spec_battery ldap_down) corp_config "Str0ngPass1!" in
  counts_add_up r /\ verdict_follows_rule r /\
  overall_status r = overall_partial /\ failed r = 1 /\ skipped r = 2.
Proof.
  cbv zeta.
  destruct (runVerification_verdict corp_config "Str0ngPass1!" (spec_battery ldap_down))
    as [Hsum Hrule].
  - discriminate.
  - split; [exact Hsum|]. split; [exact Hrule|]. vm_compute. by repeat split.
Defined.

(** The prompt gates the tests, not the wizard: the step's Continue button
    is disabled only while tests are running. *)
Remark prompt_leaves_continue_enabled (w : World VerificationStep.Local) :
  VerificationStep.running (local w) = false ->
  currentStep (store w) = VERIFICATION ->
  currentStep (store (VerificationStep.click_continue w).2) = COMPLETE.
Proof.
  intros Hr Hs. unfold VerificationStep.click_continue. rewrite Hr.
  rewrite nextStep_currentStep, Hs. reflexivity.
Qed.

(** * More properties of the wizard

    ** The store: navigation *)

Lemma store_eta (s : Store) :
  mkStore (currentStep s) (setupStatus s) (prerequisites s) (verificationResults s)
    (provisionResponse s) (loading s) (error s) (domainConfig s) = s.
Proof. by destruct s. Qed.

Lemma with_currentStep_same (s : Store) k :
  k = currentStep s -> with_currentStep k s = s.
Proof. intros ->. apply store_eta. Qed.

(** Next and Back: inside the wizard Next and Back undo each other: Back after Next
    restores the store from any step 0..6, Next after Back from any step
    1..7.  At the ends they do not: Next does nothing at Complete, so Back
    after it lands on Verification, and Back does nothing at Welcome. *)
Theorem next_back_round_trip {L} (w : World L) :
  (0 <= currentStep (store w) < 7 ->
     store (previousStep (nextStep w).2).2 = store w) /\
  (0 < currentStep (store w) <= 7 ->
     store (nextStep (previousStep w).2).2 = store w) /\
  (currentStep (store w) = COMPLETE ->
     currentStep (store (previousStep (nextStep w).2).2) = VERIFICATION) /\
  (currentStep (store w) = WELCOME ->
     currentStep (store (nextStep (previousStep w).2).2) = PREREQUISITES).
Proof.
  split; [|split; [|split]].
  - intros [H0 H7]. rewrite !nextStep_spec, !previousStep_spec. cbn [snd store].
    replace (currentStep (store w) <? 7) with true by (symmetry; by apply Z.ltb_lt).
    cbn [currentStep with_currentStep].
    replace (currentStep (store w) + 1 >? 0) with true
      by (symmetry; apply Z.gtb_lt; lia).
    clear H0 H7. destruct (store w); unfold with_currentStep; cbn. f_equal. lia.
  - intros [H0 H7]. rewrite !nextStep_spec, !previousStep_spec. cbn [snd store].
    replace (currentStep (store w) >? 0) with true by (symmetry; apply Z.gtb_lt; lia).
    cbn [currentStep with_currentStep].
    replace (currentStep (store w) - 1 <? 7) with true
      by (symmetry; apply Z.ltb_lt; lia).
    clear H0 H7. destruct (store w); unfold with_currentStep; cbn. f_equal. lia.
  - intros H. rewrite previousStep_currentStep, nextStep_currentStep, H. reflexivity.
  - intros H. rewrite nextStep_currentStep, previousStep_currentStep, H. reflexivity.
Qed.

Lemma next_back_round_trip_witness :
  store (previousStep (nextStep (mkWorld tt review_store [])).2).2 = review_store.
Proof.
  destruct (next_back_round_trip (mkWorld tt review_store [])) as (H & _).
  apply H. cbn. unfold REVIEW. lia.
Defined.
(** ** The store: which step is rendered *)

Lemma handle_from_ui_in_range be ev (w : World unit) :
  from_ui ev -> step_in_range (store w) -> step_in_range (store (handle be ev w).2).
Proof.
  unfold step_in_range. intros Hui Hr.
  destruct ev; cbn [handle];
    unfold checkStatus, checkPrerequisites, validateConfiguration, provisionDomain,
      runVerificationTests, goToStep, resetWizard, resetDomain,
      skipToVerification, checkStatus; try (run_action; cbn).
  - by destruct (status_reply be _).
  - by destruct (prerequisites_reply be _).
  - by destruct (validate_reply be _ _).
  - by destruct (provision_reply be _ _).
  - by destruct (verify_reply be _ _).
  - by apply (navigate_in_range Next).
  - by apply (navigate_in_range Previous).
  - cbn in Hui. subst step. unfold DOMAIN_CONFIG. lia.
  - by split.
  - destruct (reset_reply be _); cbn; [done|].
    destruct (status_reply be _); cbn; [done|by split].
  - by split.
  - done.
Qed.

Lemma currentStepComponent_in_range (s : Store) :
  step_in_range s <-> is_Some (SetupWizard.currentStepComponent s).
Proof.
  unfold step_in_range, SetupWizard.currentStepComponent.
  destruct (Z.ltb_spec (currentStep s) 0) as [Hneg|Hpos].
  - split; [lia|]. intros [? ?]. discriminate.
  - rewrite <- (Z2Nat.id (currentStep s)) at 1 2 by done.
    generalize (Z.to_nat (currentStep s)). intros n. split.
    + intros [_ H]. do 8 (destruct n as [|n]; [by eexists|]). lia.
    + intros [c Hc]. split; [lia|].
      do 8 (destruct n as [|n]; [lia|]). cbn in Hc. by destruct n.
Qed.

Lemma fold_from_ui_in_range be evs : forall w : World unit,
  Forall from_ui evs ->
  step_in_range (store w) ->
  step_in_range (store (fold_left (fun w ev => (handle be ev w).2) evs w)).
Proof.
  induction evs as [|ev evs IH]; intros w Hui Hw; cbn [fold_left]; [done|].
  inversion Hui; subst. apply IH; [done|]. by apply handle_from_ui_in_range.
Qed.

(** Whatever buttons are pressed and whatever the backend answers, the
    wizard's components leave [currentStep] within 0..7, so the wizard
    always has a step component to render; a step outside 0..7, which only
    a [goToStep] from elsewhere could set, has none. *)
Theorem wizard_always_renders_a_step (be : Backend) (evs : list StoreEvent) :
  (Forall from_ui evs ->
     step_in_range (store (session be evs)) /\
     is_Some (SetupWizard.currentStepComponent (store (session be evs)))) /\
  (forall step, ~ 0 <= step <= 7 ->
     SetupWizard.currentStepComponent (store (handle be (DoGoToStep step) (session be evs)).2)
       = None).
Proof.
  split.
  - intros Hui.
    assert (Hr : step_in_range (store (session be evs))).
    { apply fold_from_ui_in_range; [done|]. by split. }
    split; [done|]. by apply currentStepComponent_in_range.
  - intros step Hout.
    destruct (SetupWizard.currentStepComponent _) eqn:E; [|done].
    exfalso. apply Hout.
    apply (currentStepComponent_in_range
             (store (handle be (DoGoToStep step) (session be evs)).2)).
    by eexists.
Qed.

Lemma wizard_always_renders_a_step_witness :
  is_Some (SetupWizard.currentStepComponent
    (store (session reset_backend
              [DoNextStep; DoNextStep; DoGoToStep DOMAIN_CONFIG; DoResetDomain; DoNextStep])))
  /\
  SetupWizard.currentStepComponent
    (store (handle reset_backend (DoGoToStep 8) (session reset_backend [])).2) = None.
Proof.
  destruct (wizard_always_renders_a_step reset_backend
              [DoNextStep; DoNextStep; DoGoToStep DOMAIN_CONFIG; DoResetDomain; DoNextStep])
    as [Hin _].
  destruct (wizard_always_renders_a_step reset_backend []) as [_ Hout].
  split.
  - apply Hin. repeat constructor.
  - apply Hout. lia.
Defined.

(** ** The store: what its actions send and what [error] tells *)

Ltac unfold_store_actions :=
  unfold checkStatus, checkPrerequisites, validateConfiguration, provisionDomain,
    runVerificationTests, nextStep, previousStep, goToStep, resetWizard, resetDomain,
    skipToVerification, checkStatus.

(** After a backend action of the store, [error] is empty exactly when the
    action returned normally: it is cleared on entry and set only by the
    catch block. *)
Theorem error_iff_threw (be : Backend) (ev : StoreEvent) (w : World unit) :
  calls_backend ev = true ->
  (error (store (handle be ev w).2) = None <-> (handle be ev w).1 = Returned tt).
Proof.
  intros Hev. destruct ev; try discriminate Hev; cbn [handle];
    unfold_store_actions; run_action; cbn.
  - by destruct (status_reply be _).
  - by destruct (prerequisites_reply be _).
  - by destruct (validate_reply be _ _).
  - by destruct (provision_reply be _ _).
  - by destruct (verify_reply be _ _).
  - destruct (reset_reply be _); cbn; [done|]. by destruct (status_reply be _).
Qed.

Lemma error_iff_threw_witness :
  error (store (handle retrying_backend DoProvisionDomain
                  (mkWorld tt busy_store [])).2) = None.
Proof.
  apply (error_iff_threw retrying_backend DoProvisionDomain (mkWorld tt busy_store []));
    reflexivity.
Defined.

(** The requests each action of the store sends: navigation, the wizard
    reset and writes to the configuration send nothing; every backend
    action sends one request, with the configuration as it is at the
    call; [resetDomain] asks for the status after the reset, and only if
    the reset succeeded. *)
Theorem requests_of_store_actions (be : Backend) (ev : StoreEvent) (w : World unit) :
  sent (handle be ev w).2 =
    (sent w ++
     match ev with
     | DoCheckStatus => [GET_status]
     | DoCheckPrerequisites => [POST_check_prerequisites]
     | DoValidateConfiguration => [POST_validate_config (domainConfig (store w))]
     | DoProvisionDomain => [POST_provision (domainConfig (store w))]
     | DoRunVerificationTests => [POST_verify (domainConfig (store w))]
     | DoResetDomain =>
         match reset_reply be (sent w) with
         | inr _ => [POST_reset; GET_status]
         | inl _ => [POST_reset]
         end
     | _ => []
     end)%list.
Proof.
  destruct ev; cbn [handle]; unfold_store_actions; run_action; cbn;
    rewrite ?app_nil_r; try done.
  - by destruct (status_reply be _).
  - by destruct (prerequisites_reply be _).
  - by destruct (validate_reply be _ _).
  - by destruct (provision_reply be _ _).
  - by destruct (verify_reply be _ _).
  - destruct (reset_reply be _); cbn; [done|].
    destruct (status_reply be _); cbn; by rewrite <- app_assoc.
Qed.

(** A reset that succeeded on the server but whose status refresh failed:
    the wizard is not reset.  The step, the cached results (so the old
    status, which still says a domain is provisioned) and the
    configuration stay, the caller gets the refresh's exception and
    [error] holds the reset's message. *)
Theorem resetDomain_refresh_failure {L} (be : Backend) (w : World L) ok e :
  reset_reply be (sent w) = inr ok ->
  status_reply be (sent w ++ [POST_reset]) = inl e ->
  (resetDomain be w).1 = Threw e /\
  store (resetDomain be w).2
    = with_loading false (with_error (Some (message_or e "Domain reset failed")) (store w)) /\
  isProvisioned (store (resetDomain be w).2) = isProvisioned (store w) /\
  sent (resetDomain be w).2 = (sent w ++ [POST_reset; GET_status])%list.
Proof.
  intros H1 H2. unfold resetDomain, checkStatus. run_action.
  rewrite H1. cbn. rewrite H2. cbn. rewrite <- app_assoc. by repeat split.
Qed.

Lemma resetDomain_refresh_failure_witness :
  currentStep (store (resetDomain half_reset_backend (mkWorld tt busy_store [])).2)
    = PROVISION /\
  isProvisioned (store (resetDomain half_reset_backend (mkWorld tt busy_store [])).2) = true.
Proof.
  destruct (resetDomain_refresh_failure half_reset_backend (mkWorld tt busy_store [])
              (true, "Domain configuration reset") (ErrorObject "Network Error")
              eq_refl eq_refl) as (_ & Hs & Hp & _).
  split; [rewrite Hs|rewrite Hp]; reflexivity.
Defined.

(** ** PrerequisitesStep: running the checks *)

Section PrerequisitesMount.
Context (be : Backend).
Implicit Types w : World PrerequisitesStep.Local.

Import PrerequisitesStep.

Lemma runChecks_spec w :
  runChecks be w =
    (Returned tt,
     mkWorld (mkLocal false)
       (store (checkPrerequisites be w).2)
       (sent w ++ [POST_check_prerequisites])).
Proof.
  unfold runChecks, checkPrerequisites. run_action. cbn.
  by destruct (prerequisites_reply be (sent w)).
Qed.

Lemma onMounted_spec w :
  onMounted be w =
    match prerequisites (store w) with
    | None => runChecks be w
    | Some _ => (Returned tt, w)
    end.
Proof. unfold onMounted. unfold_action. by destruct (prerequisites (store w)). Qed.

(** The Prerequisites step checks once: mounting the step runs the checks
    only if no batch is cached, the run never throws to the component and
    ends with [checking] off, and a step mounted again over a cached batch
    sends nothing and changes nothing.  A failed run caches nothing, so the
    next mount tries again. *)
Theorem prerequisites_checked_once w :
  (onMounted be w).1 = Returned tt /\
  (prerequisites (store w) = None ->
     sent (onMounted be w).2 = (sent w ++ [POST_check_prerequisites])%list /\
     checking (local (onMounted be w).2) = false /\
     (forall r, prerequisites_reply be (sent w) = inr r ->
        prerequisites (store (onMounted be w).2) = Some r /\
        onMounted be (onMounted be w).2 = (Returned tt, (onMounted be w).2)) /\
     (forall e, prerequisites_reply be (sent w) = inl e ->
        prerequisites (store (onMounted be w).2) = None /\
        sent (onMounted be (onMounted be w).2).2
          = (sent w ++ [POST_check_prerequisites; POST_check_prerequisites])%list)) /\
  (is_Some (prerequisites (store w)) -> onMounted be w = (Returned tt, w)).
Proof.
  rewrite (onMounted_spec w).
  destruct (prerequisites (store w)) as [r0|] eqn:Hp.
  - split; [done|]. split; [done|]. done.
  - rewrite runChecks_spec. cbn [fst snd store sent local].
    split; [done|]. split; [|by intros [? ?]]. intros _.
    split; [done|]. split; [done|].
    rewrite onMounted_spec. cbn [store].
    unfold checkPrerequisites. run_action.
    split.
    + intros r Hr. rewrite Hr. cbn. done.
    + intros e He. rewrite He. cbn [snd store prerequisites with_loading with_error].
      split; [done|]. rewrite Hp, runChecks_spec. cbn. by rewrite <- app_assoc.
Qed.
End PrerequisitesMount.

Lemma prerequisites_checked_once_witness :
  let w := mkWorld PrerequisitesStep.mounted (with_currentStep PREREQUISITES initial_store) [] in
  sent (PrerequisitesStep.onMounted checker_backend
          (PrerequisitesStep.onMounted checker_backend w).2).2
  = [POST_check_prerequisites].
Proof.
  cbv zeta.
  set (w := mkWorld PrerequisitesStep.mounted (with_currentStep PREREQUISITES initial_store) []).
  destruct (prerequisites_checked_once checker_backend w) as (_ & Hnone & _).
  destruct (Hnone eq_refl) as (Hsent & _ & Hok & _).
  destruct (Hok (getPrerequisites warning_battery) eq_refl) as [_ Hagain].
  rewrite Hagain. exact Hsent.
Defined.

(** ** Splitting and joining lines *)

Lemma split_nonempty sep s : split sep s <> [].
Proof.
  destruct s as [|c r]; cbn; [done|].
  destruct (Ascii.eqb c sep); [done|]. by destruct (split sep r).
Qed.

Lemma join_split sep s : join (String sep "") (split sep s) = s.
Proof.
  induction s as [|c r IH]; [done|]. cbn [split].
  pose proof (split_nonempty sep r) as Hne.
  destruct (Ascii.eqb_spec c sep) as [->|Hc].
  - destruct (split sep r) as [|h t]; [done|]. cbn [join] in *. by rewrite IH.
  - destruct (split sep r) as [|h t]; [done|].
    destruct t as [|h' t]; cbn [join] in *; by rewrite <- IH.
Qed.

(** ** ProvisionStep: one attempt *)

Section ProvisionAttempt.
Context (be : Backend).
Implicit Types w : World ProvisionStep.Local.

Import ProvisionStep ProvisionStepView.

(** [startProvisioning], answer by answer. *)
Lemma startProvisioning_spec w :
  startProvisioning be w =
    let l := local w in
    let shown status lines advance :=
      mkLocal false status lines (advance + pending_advance l)%nat in
    (Returned tt,
     mkWorld
       match provision_reply be (sent w) (domainConfig (store w)) with
       | inl e =>
           shown "Error during provisioning" [message_or e "Unknown error"] 0%nat
       | inr r =>
           match prov_status r with
           | COMPLETED =>
               shown "Provision completed successfully!"
                 (lines_after (output r) (provisionOutput l)) 1%nat
           | FAILED =>
               shown "Provision failed" (lines_after (prov_error r) (provisionOutput l)) 0%nat
           | _ => shown "Starting domain provision..." (provisionOutput l) 0%nat
           end
       end
       (store (provisionDomain be w).2)
       (sent w ++ [POST_provision (domainConfig (store w))])).
Proof.
  unfold startProvisioning, provisionDomain, show_lines, lines_after. run_action. cbn.
  destruct (provision_reply be (sent w) _) as [e|r]; cbn; [done|].
  destruct (prov_status r); cbn; try done.
  - destruct (output r) as [t|]; cbn; [|done]. by destruct (truthy t).
  - destruct (prov_error r) as [t|]; cbn; [|done]. by destruct (truthy t).
Qed.
End ProvisionAttempt.
Section ProvisionOutcome.
Context (be : Backend).
Implicit Types w : World ProvisionStep.Local.

Import ProvisionStep ProvisionStepView.

(** An attempt never throws to the component and always ends with
    [provisioning] off; it schedules the automatic advance exactly when
    the answer's status is [COMPLETED]. *)
Theorem provisioning_attempt_ends w :
  (startProvisioning be w).1 = Returned tt /\
  provisioning (local (startProvisioning be w).2) = false /\
  ((exists r, provision_reply be (sent w) (domainConfig (store w)) = inr r /\
              prov_status r = COMPLETED) <->
   pending_advance (local (startProvisioning be w).2) = S (pending_advance (local w))) /\
  ((forall r, provision_reply be (sent w) (domainConfig (store w)) = inr r ->
              prov_status r <> COMPLETED) <->
   pending_advance (local (startProvisioning be w).2) = pending_advance (local w)).
Proof.
  rewrite startProvisioning_spec. cbn zeta. cbn [fst snd local].
  destruct (provision_reply be (sent w) _) as [e|r]; cbn.
  - split; [done|]. split; [done|]. split; split.
    + intros (r & Heq & _). discriminate Heq.
    + lia.
    + done.
    + intros _ r Heq. discriminate Heq.
  - destruct (prov_status r) eqn:Hs; cbn;
      (split; [done|]); (split; [done|]); split; split;
      try done; try lia;
      try (intros (r' & [= <-] & Hc); congruence);
      try (intros _ r' [= <-]; congruence);
      try (by exists r).
    intros H. by specialize (H r eq_refl).
Qed.

(** What the step shows is the backend's text, line for line: the output
    of a completed provision, the error text of a failed one, and the
    message of an exception.  An answer without text replaces nothing, so
    the lines of the attempt before stay on display. *)
Theorem provision_output_shown_verbatim w :
  (forall r t,
     provision_reply be (sent w) (domainConfig (store w)) = inr r ->
     (prov_status r = COMPLETED /\ output r = Some t) \/
     (prov_status r = FAILED /\ prov_error r = Some t) ->
     t <> "" ->
     shown_output (local (startProvisioning be w).2) = t) /\
  (forall e,
     provision_reply be (sent w) (domainConfig (store w)) = inl e ->
     shown_output (local (startProvisioning be w).2) = message_or e "Unknown error") /\
  (forall r,
     provision_reply be (sent w) (domainConfig (store w)) = inr r ->
     (prov_status r = COMPLETED /\ (output r = None \/ output r = Some "")) \/
     (prov_status r = FAILED /\ (prov_error r = None \/ prov_error r = Some "")) ->
     provisionOutput (local (startProvisioning be w).2) = provisionOutput (local w)).
Proof.
  rewrite startProvisioning_spec. cbn zeta. cbn [snd local].
  split; [|split].
  - intros r t -> Hcase Ht.
    assert (Htruthy : truthy t = true).
    { unfold truthy. apply negb_true_iff. by apply String.eqb_neq. }
    unfold shown_output.
    destruct Hcase as [[-> Ho]|[-> He]]; cbn [provisionOutput]; unfold lines_after;
      rewrite ?Ho, ?He, Htruthy; apply join_split.
  - intros e ->. reflexivity.
  - intros r -> [[-> [Ho|Ho]]|[-> [He|He]]]; cbn [provisionOutput]; unfold lines_after;
      rewrite ?Ho, ?He; reflexivity.
Qed.

(** An exception leaves the buttons of the step as the last answer set
    them.  On a first attempt on a host whose cached status shows no
    domain, that is no button at all: neither Retry nor Back nor Continue
    is rendered. *)
Theorem thrown_provisioning_leaves_buttons w e :
  provision_reply be (sent w) (domainConfig (store w)) = inl e ->
  controls (startProvisioning be w).2
    = controls (mkWorld (with_provisioning false (local w)) (store w) (sent w)) /\
  (provisionResponse (store w) = None -> isProvisioned (store w) = false ->
     controls (startProvisioning be w).2 = []).
Proof.
  intros He. rewrite startProvisioning_spec, provisionDomain_spec. cbn zeta.
  rewrite He. unfold controls, last_status, isProvisioned. cbn.
  split; [done|]. intros -> Hp. destruct (setupStatus (store w)); cbn in *; by rewrite ?Hp.
Qed.
End ProvisionOutcome.

Lemma provisioning_attempt_ends_witness :
  ProvisionStep.pending_advance
    (local (ProvisionStep.startProvisioning completing_backend provision_step_on_step).2)
  = 1%nat.
Proof.
  destruct (provisioning_attempt_ends completing_backend provision_step_on_step)
    as (_ & _ & [H _] & _).
  rewrite H; [reflexivity|]. exists completed_job. by split.
Defined.

Lemma provision_output_shown_verbatim_witness :
  ProvisionStepView.shown_output
    (local (ProvisionStep.startProvisioning retrying_backend provision_step_on_step).2)
  = "samba-tool: error".
Proof.
  destruct (provision_output_shown_verbatim retrying_backend provision_step_on_step)
    as (H & _).
  apply (H failed_job); [reflexivity|by right|discriminate].
Defined.

Lemma thrown_provisioning_leaves_buttons_witness :
  ProvisionStepView.controls
    (ProvisionStep.startProvisioning unreachable_backend provision_step_on_step).2 = [].
Proof.
  destruct (thrown_provisioning_leaves_buttons unreachable_backend provision_step_on_step
              (ErrorObject "Network Error") eq_refl) as [_ H].
  by apply H.
Defined.

(** ** VerificationStep: mounting and running the tests *)

Lemma checkStatus_spec {L} (be : Backend) (w : World L) :
  checkStatus be w =
    let s0 := with_error None (with_loading true (store w)) in
    match status_reply be (sent w) with
    | inr r =>
        (Returned tt,
         mkWorld (local w) (with_loading false (with_setupStatus (Some r) s0))
           (sent w ++ [GET_status]))
    | inl e =>
        (Threw e,
         mkWorld (local w)
           (with_loading false (with_error (Some (message_or e "Failed to check status")) s0))
           (sent w ++ [GET_status]))
    end.
Proof.
  unfold checkStatus. run_action. by destruct (status_reply be (sent w)).
Qed.

Section VerificationMount.
Context (be : Backend).
Implicit Types w : World VerificationStep.Local.

Import VerificationStep.

Lemma verification_onMounted_spec w :
  onMounted be w =
    match (checkStatus be w).1 with
    | Threw e => (Threw e, (checkStatus be w).2)
    | Returned _ =>
        let w1 := (checkAndPrepareConfig be (checkStatus be w).2).2 in
        if bool_decide (verificationResults (store w1) = None)
           && negb (needsPassword (local w1))
        then runTests be w1
        else (Returned tt, w1)
    end.
Proof.
  unfold onMounted. unfold_action.
  destruct (checkStatus be w) as [[[]|e] w0]; cbn [fst snd]; [|done].
  pose proof (checkAndPrepareConfig_returns be w0) as Hret.
  destruct (checkAndPrepareConfig be w0) as [c w1]. cbn in Hret. subst c.
  cbn [fst snd]. by destruct (_ && _).
Qed.

Lemma sends_fit_only_nothing {A} (act : Action Local A) w :
  sent (act w).2 = sent w -> sends_fit_only act w.
Proof. intros H. exists []. by rewrite app_nil_r. Qed.

Lemma checkAndPrepareConfig_sends w :
  exists added,
    sent (checkAndPrepareConfig be w).2 = (sent w ++ added)%list /\
    Forall verifies_fit_only added.
Proof.
  rewrite checkAndPrepareConfig_spec. cbn zeta.
  destruct (_ && _).
  - exists [GET_domain_info]. split; [by destruct (domain_info_reply be _)|].
    by repeat constructor.
  - exists []. by rewrite app_nil_r.
Qed.

Lemma runTests_sends_fit_only w : sends_fit_only (runTests be) w.
Proof.
  unfold sends_fit_only. rewrite runTests_spec. cbv zeta.
  destruct (checkAndPrepareConfig_sends w) as (added & Hsent & Hfit).
  set (w1 := (checkAndPrepareConfig be w).2) in *.
  destruct (negb _ || _) eqn:Hpw; [by exists added|].
  destruct (is_placeholder _) eqn:Hph; [by exists added|].
  rewrite runVerificationTests_spec. cbn zeta. cbn [sent snd].
  exists (added ++ [POST_verify (domainConfig (store w1))])%list. split.
  - destruct (verify_reply be _ _); cbn [snd sent]; by rewrite Hsent, <- app_assoc.
  - apply Forall_app. split; [done|]. constructor; [|done].
    split; [|done]. apply orb_false_iff in Hpw as [_ Hlen]. by apply Z.ltb_ge.
Qed.

(** Every verification request that VerificationStep sends, whether on
    mount, on Run Tests Again or after a password was submitted, carries a
    configuration with a password of at least 8 characters and without a
    placeholder value; and these handlers only ever add to the log. *)
Theorem verification_sent_only_when_fit w :
  sends_fit_only (runTests be) w /\
  sends_fit_only (click_run_again be) w /\
  sends_fit_only (submitPassword be) w /\
  sends_fit_only (onMounted be) w.
Proof.
  split; [apply runTests_sends_fit_only|]. split; [|split].
  - unfold sends_fit_only, click_run_again. destruct (running (local w)).
    + exists []. by rewrite app_nil_r.
    + apply runTests_sends_fit_only.
  - destruct (Z.lt_ge_cases (len (adminPassword (local w))) 8) as [Hshort|Hlong].
    + apply sends_fit_only_nothing. by rewrite submitPassword_short.
    + unfold sends_fit_only. rewrite submitPassword_long by done.
      apply (runTests_sends_fit_only (password_accepted w)).
  - unfold sends_fit_only. rewrite verification_onMounted_spec, checkStatus_spec. cbn zeta.
    destruct (status_reply be (sent w)) as [e|st]; cbn [fst snd].
    + exists [GET_status]. cbn. split; [done|]. by repeat constructor.
    + set (w0 := mkWorld _ _ _).
      destruct (checkAndPrepareConfig_sends w0) as (added & Hsent & Hfit).
      destruct (_ && _).
      * destruct (runTests_sends_fit_only (checkAndPrepareConfig be w0).2)
          as (added' & Hsent' & Hfit').
        exists ([GET_status] ++ added ++ added')%list. split.
        -- rewrite Hsent', Hsent. subst w0. cbn [sent]. by rewrite <- !app_assoc.
        -- repeat (apply Forall_app; split); try done. by repeat constructor.
      * exists ([GET_status] ++ added)%list. split.
        -- cbn [snd]. rewrite Hsent. subst w0. cbn [sent]. by rewrite <- !app_assoc.
        -- apply Forall_app; split; [by repeat constructor|done].
Qed.
End VerificationMount.

Section VerificationOutcome.
Context (be : Backend).
Implicit Types w : World VerificationStep.Local.

Import VerificationStep.

(** [runTests] never throws to the component.  When the prepared
    configuration is fit, it ends with [running] off; an answer becomes
    the results and clears the store's [error]; an exception keeps the
    results that were there, is recorded in the store's [error] only and
    leaves the component's own message as it was. *)
Theorem runTests_outcome w :
  (runTests be w).1 = Returned tt /\
  (let w1 := (checkAndPrepareConfig be w).2 in
   let c := domainConfig (store w1) in
   fit_for_verification c ->
   running (local (runTests be w).2) = false /\
   (forall r, verify_reply be (sent w1) c = inr r ->
      verificationResults (store (runTests be w).2) = Some r /\
      error (store (runTests be w).2) = None) /\
   (forall e, verify_reply be (sent w1) c = inl e ->
      verificationResults (store (runTests be w).2) = verificationResults (store w) /\
      error (store (runTests be w).2) = Some (message_or e "Verification tests failed") /\
      passwordError (local (runTests be w).2) = passwordError (local w1))).
Proof.
  rewrite runTests_spec. cbv zeta.
  destruct (checkAndPrepareConfig_frame be w) as (_ & _ & Hres & _).
  set (w1 := (checkAndPrepareConfig be w).2) in *.
  split.
  - destruct (negb _ || _); [done|]. by destruct (is_placeholder _).
  - intros [Hlen Hph]. rewrite Hph.
    assert (Hpw : negb (truthy (admin_password (domainConfig (store w1))))
                  || (len (admin_password (domainConfig (store w1))) <? 8) = false).
    { apply orb_false_iff. split; [|by apply Z.ltb_ge].
      apply negb_false_iff. unfold truthy. apply negb_true_iff, String.eqb_neq.
      intros Hempty. rewrite Hempty in Hlen. by vm_compute in Hlen. }
    rewrite Hpw. rewrite runVerificationTests_spec. cbn zeta. cbn [sent store local].
    split; [done|]. split.
    + intros r ->. done.
    + intros e ->. cbn. by rewrite Hres.
Qed.

(** Mounting the step refreshes the status first.  If that call throws,
    the mount stops there: nothing else is sent, the component's refs are
    untouched (no prompt, no tests) and the exception is left unhandled.
    If results are already cached, mounting sends no verification
    request. *)
Theorem verification_mount w :
  (forall e, status_reply be (sent w) = inl e ->
     (onMounted be w).1 = Threw e /\
     local (onMounted be w).2 = local w /\
     sent (onMounted be w).2 = (sent w ++ [GET_status])%list /\
     domainConfig (store (onMounted be w).2) = domainConfig (store w)) /\
  (is_Some (verificationResults (store w)) ->
     requests is_verify (sent (onMounted be w).2) = requests is_verify (sent w) /\
     verificationResults (store (onMounted be w).2) = verificationResults (store w)).
Proof.
  rewrite verification_onMounted_spec, checkStatus_spec. cbn zeta. split.
  - intros e ->. done.
  - intros [r0 Hr0].
    destruct (status_reply be (sent w)) as [e|st]; cbn [fst snd sent store].
    + rewrite requests_app. cbn. by rewrite app_nil_r.
    + set (w0 := mkWorld _ _ _).
      destruct (checkAndPrepareConfig_frame be w0) as (_ & Hreq & Hres & _).
      rewrite Hres. subst w0. cbn [store verificationResults with_loading with_setupStatus
        with_error]. rewrite Hr0. cbn [bool_decide andb].
      rewrite bool_decide_false by done. cbn [andb snd].
      rewrite Hreq, Hres. cbn [sent store]. rewrite requests_app. cbn.
      by rewrite app_nil_r.
Qed.
End VerificationOutcome.

Lemma runTests_outcome_witness :
  verificationResults
    (store (VerificationStep.runTests live_domain_backend verification_with_password).2)
  = Some green_run.
Proof.
  destruct (runTests_outcome live_domain_backend verification_with_password) as (_ & H).
  destruct H as (_ & Hok & _).
  - split; vm_compute; [discriminate|reflexivity].
  - apply Hok. reflexivity.
Defined.

Lemma verification_mount_witness :
  (VerificationStep.onMounted unreachable_backend verification_with_password).1
  = Threw (ErrorObject "Network Error").
Proof.
  destruct (verification_mount unreachable_backend verification_with_password) as (H & _).
  by apply H.
Defined.

(** ** A live domain with a placeholder name *)

Lemma upper_of_lower_ascii c : upper_ascii (lower_ascii c) = upper_ascii c.
Proof. destruct c as [[] [] [] [] [] [] [] []]; reflexivity. Qed.

Lemma toUpperCase_toLowerCase s : toUpperCase (toLowerCase s) = toUpperCase s.
Proof.
  unfold toUpperCase, toLowerCase. induction s as [|c r IH]; [done|].
  cbn. by rewrite IH, upper_of_lower_ascii.
Qed.

Lemma populate_realm info c f :
  info !! "Forest" = Some f -> f <> "" ->
  realm (VerificationStep.populate info c) = toUpperCase f.
Proof.
  intros Hf Hne. unfold VerificationStep.populate, VerificationStep.when_present.
  rewrite Hf.
  assert (Ht : truthy f = true) by (unfold truthy; by apply negb_true_iff, String.eqb_neq).
  rewrite Ht. cbn.
  repeat (match goal with
          | |- context [info !! ?k] => destruct (info !! k) as [?v|]
          | |- context [truthy ?v] => destruct (truthy v)
          end; cbn); reflexivity.
Qed.

Section PlaceholderDomain.
Context (be : Backend).
Implicit Types w : World VerificationStep.Local.

Import VerificationStep.

(** The placeholder test cannot tell defaults from a real domain called
    example.com: when the introspected forest is example.com in any
    letter case, the configuration is filled in and is still a
    placeholder, so [runTests] sends no verification request and, with a
    password present, ends with the message that the configuration could
    not be loaded.  The next run starts from the same situation. *)
Theorem example_com_is_never_verified w info f :
  isProvisioned (store w) = true ->
  is_placeholder (domainConfig (store w)) = true ->
  domain_info_reply be (sent w) = inr info ->
  info !! "Forest" = Some f ->
  toLowerCase f = "example.com" ->
  requests is_verify (sent (runTests be w).2) = requests is_verify (sent w) /\
  realm (domainConfig (store (runTests be w).2)) = "EXAMPLE.COM" /\
  is_placeholder (domainConfig (store (runTests be w).2)) = true /\
  isProvisioned (store (runTests be w).2) = true /\
  (8 <= len (admin_password (domainConfig (store w))) ->
     passwordError (local (runTests be w).2)
       = "Unable to load domain configuration. Please check if domain is provisioned.").
Proof.
  intros Hprov Hph Hinfo Hf Hlower.
  assert (Hne : f <> "") by (intros ->; discriminate Hlower).
  assert (Hrealm : realm (populate info (domainConfig (store w))) = "EXAMPLE.COM").
  { rewrite (populate_realm info _ f Hf Hne), <- toUpperCase_toLowerCase, Hlower.
    reflexivity. }
  assert (Hprep : (checkAndPrepareConfig be w).2
                  = mkWorld
                      (with_needsPassword
                         (len (admin_password (domainConfig (store w))) <? 8) (local w))
                      (with_domainConfig (populate info (domainConfig (store w))) (store w))
                      (sent w ++ [GET_domain_info])).
  { rewrite checkAndPrepareConfig_spec. cbn zeta. by rewrite Hprov, Hph, Hinfo. }
  assert (Hph' : is_placeholder (populate info (domainConfig (store w))) = true).
  { unfold is_placeholder. rewrite Hrealm. by rewrite orb_true_r. }
  rewrite runTests_spec. cbv zeta. rewrite Hprep.
  cbn [store sent local domainConfig with_domainConfig].
  rewrite Hph', populate_admin_password.
  destruct (negb _ || _) eqn:Hpw; cbn [snd store sent local domainConfig with_domainConfig
    passwordError with_passwordError isProvisioned setupStatus];
    rewrite requests_app; cbn [requests List.filter is_verify]; rewrite app_nil_r;
    (split; [done|]); (split; [done|]); (split; [done|]); (split; [done|]).
  - intros Hlen. apply orb_true_iff in Hpw as [Hempty|Hshort].
    + apply negb_true_iff in Hempty. unfold truthy in Hempty.
      apply negb_false_iff, String.eqb_eq in Hempty. rewrite Hempty in Hlen.
      by vm_compute in Hlen.
    + apply Z.ltb_lt in Hshort. lia.
  - done.
Qed.
End PlaceholderDomain.

Lemma example_com_is_never_verified_witness :
  requests is_verify
    (sent (VerificationStep.runTests example_com_backend verification_with_password).2) = [] /\
  VerificationStep.passwordError
    (local (VerificationStep.runTests example_com_backend verification_with_password).2)
  = "Unable to load domain configuration. Please check if domain is provisioned.".
Proof.
  destruct (example_com_is_never_verified example_com_backend verification_with_password
              (<["Forest" := "Example.COM"]> (<["Netbios domain" := "EXAMPLE"]> ∅))
              "Example.COM" eq_refl eq_refl eq_refl eq_refl eq_refl)
    as (Hreq & _ & _ & _ & Hmsg).
  split; [exact Hreq|]. apply Hmsg. vm_compute. discriminate.
Defined.

(** ** ProvisionStep: the automatic advance *)

Section AutoAdvance.
Context (be : Backend).

Lemma checkAndPrepareConfig_currentStep (w : World VerificationStep.Local) :
  currentStep (store (VerificationStep.checkAndPrepareConfig be w).2) = currentStep (store w).
Proof.
  rewrite checkAndPrepareConfig_spec. cbn zeta.
  destruct (_ && _); [|done]. by destruct (domain_info_reply be _).
Qed.

Lemma runTests_currentStep (w : World VerificationStep.Local) :
  currentStep (store (VerificationStep.runTests be w).2) = currentStep (store w).
Proof.
  rewrite runTests_spec. cbv zeta.
  pose proof (checkAndPrepareConfig_currentStep w) as Hprep.
  destruct (negb _ || _); [done|].
  destruct (VerificationStep.is_placeholder _); [done|].
  rewrite runVerificationTests_spec. cbn zeta.
  by destruct (verify_reply be _ _).
Qed.

Lemma verification_onMounted_currentStep (w : World VerificationStep.Local) :
  currentStep (store (VerificationStep.onMounted be w).2) = currentStep (store w).
Proof.
  rewrite verification_onMounted_spec, checkStatus_spec. cbn zeta.
  destruct (status_reply be (sent w)); cbn [fst snd]; [done|].
  destruct (_ && _); cbn [snd];
    rewrite ?runTests_currentStep, checkAndPrepareConfig_currentStep; done.
Qed.

Import ProvisionStep ProvisionStepView.

(** After a completed provision the step offers Continue and has the
    advance scheduled, and nothing cancels the scheduled call: left alone
    it moves the wizard from Provision to Verification, but if Continue is
    pressed first it still runs, on top of the click, and the wizard ends
    on Complete, whatever VerificationStep did when it was mounted in
    between. *)
Theorem auto_advance_is_never_cancelled (w : World Local) r :
  currentStep (store w) = PROVISION ->
  provision_reply be (sent w) (domainConfig (store w)) = inr r ->
  prov_status r = COMPLETED ->
  let w1 := (startProvisioning be w).2 in
  ContinueToVerification ∈ controls w1 /\
  currentStep (store (timer_fires w1).2) = VERIFICATION /\
  (let w2 := (click_continue w1).2 in
   currentStep (store w2) = VERIFICATION /\
   forall lv,
     let w3 := (VerificationStep.onMounted be (mkWorld lv (store w2) (sent w2))).2 in
     currentStep (store (timer_fires (mkWorld (local w2) (store w3) (sent w3))).2)
       = COMPLETE).
Proof.
  intros Hstep Hreply Hcompleted. cbv zeta.
  assert (Hw1 : exists lines status,
             (startProvisioning be w).2
             = mkWorld (mkLocal false status lines (S (pending_advance (local w))))
                 (with_loading false
                    (with_provisionResponse (Some r)
                       (with_error None (with_loading true (store w)))))
                 (sent w ++ [POST_provision (domainConfig (store w))])).
  { rewrite startProvisioning_spec, provisionDomain_spec. cbn zeta.
    rewrite Hreply, Hcompleted. by eexists _, _. }
  destruct Hw1 as (lines & status & ->).
  assert (Hc : ContinueToVerification
               ∈ controls
                   (mkWorld (mkLocal false status lines (S (pending_advance (local w))))
                      (with_loading false
                         (with_provisionResponse (Some r)
                            (with_error None (with_loading true (store w)))))
                      (sent w ++ [POST_provision (domainConfig (store w))]))).
  { unfold controls, last_status. cbn. rewrite Hcompleted.
    apply elem_of_app. right. by apply list_elem_of_singleton. }
  split; [exact Hc|]. split.
  - unfold timer_fires. cbn [local pending_advance].
    rewrite nextStep_currentStep. cbn. by rewrite Hstep.
  - unfold click_continue. rewrite bool_decide_true by exact Hc.
    split; [rewrite nextStep_currentStep; cbn; by rewrite Hstep|].
    intros lv. unfold timer_fires at 1. rewrite nextStep_spec. cbn [snd local store sent
      pending_advance].
    rewrite nextStep_currentStep. cbn [store]. rewrite verification_onMounted_currentStep.
    cbn. by rewrite Hstep.
Qed.
End AutoAdvance.

Lemma auto_advance_is_never_cancelled_witness :
  let w1 := (ProvisionStep.startProvisioning completing_backend provision_step_on_step).2 in
  let w2 := (ProvisionStepView.click_continue w1).2 in
  let w3 := (VerificationStep.onMounted completing_backend
               (mkWorld VerificationStep.mounted (store w2) (sent w2))).2 in
  currentStep
    (store (ProvisionStepView.timer_fires (mkWorld (local w2) (store w3) (sent w3))).2)
  = COMPLETE.
Proof.
  cbv zeta.
  destruct (auto_advance_is_never_cancelled completing_backend provision_step_on_step
              completed_job eq_refl eq_refl eq_refl) as (_ & _ & _ & H).
  apply H.
Defined.

(** ** VerificationStep: grouping the tests by category *)

Section Grouping.
Implicit Types (t : VerificationTest) (c : TestCategory).
Implicit Types g : list (TestCategory * list VerificationTest).

Lemma tests_of_push_test t c g :
  tests_of c (push_test t g) =
    if decide (category t = c) then Some (default [] (tests_of c g) ++ [t])%list
    else tests_of c g.
Proof.
  induction g as [|[c' ts] g IH]; cbn.
  - by destruct (decide (category t = c)).
  - destruct (decide (c' = category t)) as [Heq|Hne]; cbn.
    + destruct (decide (c' = c)) as [Hc|Hc]; destruct (decide (category t = c)); cbn;
        congruence.
    + destruct (decide (c' = c)) as [Hc|Hc]; [|exact IH].
      destruct (decide (category t = c)); [congruence|done].
Qed.

Lemma keys_push_test t g :
  (category t ∈ g.*1 -> (push_test t g).*1 = g.*1) /\
  (category t ∉ g.*1 -> (push_test t g).*1 = (g.*1 ++ [category t])%list).
Proof.
  induction g as [|[c' ts] g [IHin IHout]]; cbn.
  - split; [by intros ?%elem_of_nil|done].
  - destruct (decide (c' = category t)) as [->|Hne]; cbn.
    + split; [done|]. intros Hout. exfalso. apply Hout. by left.
    + split.
      * intros [?|Hin]%elem_of_cons; [congruence|]. by rewrite IHin.
      * intros Hout%not_elem_of_cons. by rewrite (IHout (proj2 Hout)).
Qed.

Lemma NoDup_push_test t g : NoDup g.*1 -> NoDup (push_test t g).*1.
Proof.
  intros Hg. destruct (keys_push_test t g) as [Hin Hout].
  destruct (decide (category t ∈ g.*1)) as [H|H].
  - by rewrite Hin.
  - rewrite (Hout H). apply NoDup_app. split; [done|]. split.
    + intros x Hx ->%list_elem_of_singleton. done.
    + apply NoDup_singleton.
Qed.

Lemma concat_push_test t g :
  concat (push_test t g).*2 ≡ₚ (concat g.*2 ++ [t])%list.
Proof.
  induction g as [|[c' ts] g IH]; cbn; [done|].
  destruct (decide (c' = category t)); cbn.
  - rewrite <- !app_assoc. apply Permutation_app_head, Permutation_app_comm.
  - rewrite IH. by rewrite app_assoc.
Qed.

Lemma grouped_snoc ts t : grouped (ts ++ [t]) = push_test t (grouped ts).
Proof. unfold grouped. by rewrite fold_left_app. Qed.

Lemma grouped_spec ts :
  NoDup (grouped ts).*1 /\
  (forall c, tests_of c (grouped ts)
             = match in_category c ts with [] => None | found => Some found end) /\
  concat (grouped ts).*2 ≡ₚ ts.
Proof.
  induction ts as [|t ts (IHk & IHt & IHc)] using rev_ind.
  - split; [constructor|]. split; [done|done].
  - rewrite grouped_snoc. split; [by apply NoDup_push_test|]. split.
    + intros c. rewrite tests_of_push_test, IHt. unfold in_category.
      rewrite filter_app, filter_cons, filter_nil.
      destruct (decide (category t = c)) as [Hc|Hc]; cbn.
      * destruct (filter _ ts); cbn; done.
      * rewrite app_nil_r. done.
    + by rewrite concat_push_test, IHc.
Qed.

(** [testsByCategory] sorts the tests of the cached run into one list per
    category: each category that occurs has exactly the tests of that
    category, in the run's order, no category appears twice or with an
    empty list, and no test is lost or repeated.  Without a cached run
    there are no categories. *)
Theorem testsByCategory_partitions (s : Store) :
  (verificationResults s = None -> testsByCategory s = []) /\
  (forall r, verificationResults s = Some r ->
     NoDup (testsByCategory s).*1 /\
     (forall c, tests_of c (testsByCategory s)
                = match in_category c (tests r) with [] => None | found => Some found end) /\
     concat (testsByCategory s).*2 ≡ₚ tests r).
Proof.
  unfold testsByCategory. split.
  - by intros ->.
  - intros r ->. apply grouped_spec.
Qed.
End Grouping.

Lemma testsByCategory_partitions_witness :
  (testsByCategory store_with_results).*1
    = [cat_dns; cat_services; cat_ldap; cat_kerberos; cat_auth] /\
  length (concat (testsByCategory store_with_results).*2) = 14%nat.
Proof.
  split; [reflexivity|].
  destruct (testsByCategory_partitions store_with_results) as [_ H].
  destruct (H _ eq_refl) as (_ & _ & Hperm).
  rewrite Hperm. reflexivity.
Defined.

(** ** DomainConfigStep: the autofill *)

Lemma split_head sep s h t :
  split sep s = h :: t ->
  String.prefix h s = true /\ occurs sep h = false /\
  ((forall r, s <> String sep r) -> s <> "" -> h <> "").
Proof.
  revert h t. induction s as [|c r IH]; intros h t; cbn.
  - intros [= <- <-]. by repeat split.
  - destruct (Ascii.eqb_spec c sep) as [->|Hc].
    + intros [= <- <-]. repeat split; try done. intros H. by specialize (H r).
    + pose proof (split_nonempty sep r) as Hne.
      destruct (split sep r) as [|h' t'] eqn:E; [done|]. intros [= <- <-].
      destruct (IH h' t' eq_refl) as (Hp & Ho & _). cbn.
      destruct (Ascii.ascii_dec c c); [|done].
      split; [done|]. split; [|done].
      rewrite Ho, orb_false_r. by apply Ascii.eqb_neq.
Qed.

Lemma prefix_map_string f h s :
  String.prefix h s = true -> String.prefix (map_string f h) (map_string f s) = true.
Proof.
  revert s. induction h as [|c h IH]; intros [|c' s]; cbn; try done.
  destruct (Ascii.ascii_dec c c') as [->|]; [|done]. intros H.
  destruct (Ascii.ascii_dec (f c') (f c')); [|done]. by apply IH.
Qed.

Lemma prefix_same s : String.prefix s s = true.
Proof.
  induction s as [|c s IH]; [done|]. cbn. by destruct (Ascii.ascii_dec c c).
Qed.

Lemma upper_ascii_dot c : Ascii.eqb (upper_ascii c) "." = Ascii.eqb c ".".
Proof. destruct c as [[] [] [] [] [] [] [] []]; reflexivity. Qed.

Lemma occurs_dot_toUpperCase s : occurs "." (toUpperCase s) = occurs "." s.
Proof.
  unfold toUpperCase. induction s as [|c r IH]; [done|].
  cbn. by rewrite IH, upper_ascii_dot.
Qed.

Lemma toUpperCase_empty s : toUpperCase s = "" -> s = "".
Proof. by destruct s. Qed.

Section Autofill.
Import DomainConfigStep.

End Autofill.


(** ** SetupWizard and the modal for an existing domain *)

Section ExistingDomain.
Context (be : Backend).
Implicit Types w : World SetupWizard.Local.

Import SetupWizard.

Lemma resetDomain_spec {L} (v : World L) :
  resetDomain be v =
    let s0 := with_error None (with_loading true (store v)) in
    let failed e h : Completion (bool * string) * World L :=
      (Threw e,
       mkWorld (local v)
         (with_loading false (with_error (Some (message_or e "Domain reset failed")) s0)) h) in
    match reset_reply be (sent v) with
    | inl e => failed e (sent v ++ [POST_reset])%list
    | inr ok =>
        match status_reply be (sent v ++ [POST_reset])%list with
        | inl e => failed e (sent v ++ [POST_reset; GET_status])%list
        | inr st =>
            (Returned ok,
             mkWorld (local v)
               (mkStore 0 (Some st) None None None false None (domainConfig (store v)))
               (sent v ++ [POST_reset; GET_status]))
        end
    end.
Proof.
  unfold resetDomain, checkStatus, resetWizard. run_action. cbn zeta.
  destruct (reset_reply be (sent v)); cbn; [done|].
  destruct (status_reply be _); cbn; by rewrite <- app_assoc.
Qed.

(** Reset Domain in the modal never throws to the component and ends with
    [resetting] off.  The modal closes exactly when the reset and the
    status refresh both succeeded, and then the wizard is back on
    Welcome with its results cleared; otherwise the modal stays open on
    the step the wizard was on and shows the exception's message. *)
Theorem modal_closes_iff_reset_succeeded w :
  showExistingDomainModal (local w) = true ->
  (handleReset be w).1 = Returned tt /\
  resetting (local (handleReset be w).2) = false /\
  (showExistingDomainModal (local (handleReset be w).2) = false <->
     exists ok, (resetDomain be w).1 = Returned ok) /\
  ((exists ok, (resetDomain be w).1 = Returned ok) ->
     wizard_reset (store w) (store (handleReset be w).2) /\
     errorMessage (local (handleReset be w).2) = None) /\
  (forall e, (resetDomain be w).1 = Threw e ->
     errorMessage (local (handleReset be w).2) = Some (message_or e "Failed to reset domain") /\
     currentStep (store (handleReset be w).2) = currentStep (store w) /\
     cached_results (store (handleReset be w).2) = cached_results (store w)).
Proof.
  intros Hshown.
  assert (Hspec : handleReset be w =
            let v := mkWorld (with_errorMessage None (with_resetting true (local w)))
                       (store w) (sent w) in
            match resetDomain be v with
            | (Returned _, v') =>
                (Returned tt,
                 mkWorld (with_resetting false (with_show false (local v'))) (store v') (sent v'))
            | (Threw e, v') =>
                (Returned tt,
                 mkWorld
                   (with_resetting false
                      (with_errorMessage (Some (message_or e "Failed to reset domain"))
                         (local v')))
                   (store v') (sent v'))
            end).
  { unfold handleReset, closeModal. unfold_action. cbn zeta. cbn [local store sent].
    by destruct (resetDomain be _) as [[?|?] ?]. }
  rewrite Hspec. cbn zeta. rewrite !resetDomain_spec. cbn zeta. cbn [store sent local].
  destruct (reset_reply be (sent w)) as [e|ok]; cbn.
  - split; [done|]. split; [done|]. split; [|split].
    + rewrite Hshown. split; [done|]. by intros [? ?].
    + by intros [? ?].
    + by intros e' [= <-].
  - destruct (status_reply be _) as [e|st]; cbn.
    + split; [done|]. split; [done|]. split; [|split].
      * rewrite Hshown. split; [done|]. by intros [? ?].
      * by intros [? ?].
      * by intros e' [= <-].
    + split; [done|]. split; [done|]. split; [|split].
      * split; [by exists ok|done].
      * intros _. by repeat split.
      * intros e' [=].
Qed.

(** On mount the wizard asks for the status, and then opens the modal by
    itself exactly when the status says a domain is provisioned and the
    wizard is on Welcome.  If the status request throws, the modal stays
    closed and the exception is left unhandled. *)
Theorem modal_opens_on_mount w :
  showExistingDomainModal (local w) = false ->
  (showExistingDomainModal (local (onMounted be w).2) = true <->
     exists st, status_reply be (sent w) = inr st /\ is_provisioned st = true /\
                currentStep (store w) = WELCOME) /\
  (forall e, status_reply be (sent w) = inl e ->
     (onMounted be w).1 = Threw e /\ local (onMounted be w).2 = local w).
Proof.
  intros Hclosed.
  assert (Hspec : onMounted be w =
            match checkStatus be w with
            | (Returned _, v) =>
                (Returned tt,
                 if isProvisioned (store v) && (currentStep (store v) =? 0)
                 then mkWorld (with_show true (local v)) (store v) (sent v)
                 else v)
            | (Threw e, v) => (Threw e, v)
            end).
  { unfold onMounted. unfold_action. destruct (checkStatus be w) as [[?|?] v]; [|done].
    cbn. by destruct (_ && _). }
  rewrite Hspec, checkStatus_spec. cbn zeta.
  destruct (status_reply be (sent w)) as [e|st]; cbn.
  - split; [|by intros e' [= <-]]. rewrite Hclosed. split; [done|].
    by intros (? & ? & _).
  - split; [|by intros e' [=]].
    destruct (is_provisioned st) eqn:Hp; cbn.
    + destruct (Z.eqb_spec (currentStep (store w)) 0) as [H0|H0]; cbn.
      * split; [|done]. intros _. by exists st.
      * rewrite Hclosed. split; [done|]. intros (st' & [= <-] & _ & H). by destruct H0.
    + rewrite Hclosed. split; [done|]. intros (st' & [= <-] & H & _). congruence.
Qed.
End ExistingDomain.

Lemma modal_closes_iff_reset_succeeded_witness :
  let w := mkWorld (SetupWizard.mkLocal true false None) busy_store [] in
  SetupWizard.showExistingDomainModal (local (SetupWizard.handleReset reset_backend w).2)
    = false /\
  currentStep (store (SetupWizard.handleReset reset_backend w).2) = WELCOME.
Proof.
  cbv zeta.
  destruct (modal_closes_iff_reset_succeeded reset_backend
              (mkWorld (SetupWizard.mkLocal true false None) busy_store []) eq_refl)
    as (_ & _ & Hiff & Hok & _).
  assert (Hret : exists ok,
            (resetDomain reset_backend
               (mkWorld (SetupWizard.mkLocal true false None) busy_store [])).1
            = Returned ok) by (by eexists).
  split; [by apply Hiff|]. by destruct (Hok Hret) as [(? & _) _].
Defined.

Lemma modal_opens_on_mount_witness :
  SetupWizard.showExistingDomainModal
    (local (SetupWizard.onMounted checker_backend wizard_entered).2) = true.
Proof.
  destruct (modal_opens_on_mount checker_backend wizard_entered eq_refl) as [Hiff _].
  apply Hiff. by eexists.
Defined.

(** * Properties of authentication and routing *)

Ltac unfold_auth :=
  unfold mbind, mret, Auth.action_bind, Auth.action_ret, Auth.throw, Auth.try_catch,
    Auth.try_finally, Auth.update_store, Auth.read_store, Auth.setItem, Auth.removeItem,
    Auth.request, Auth.clear_session in *.

Section AuthStore.
Context (be : Auth.Backend) (w : Auth.World).

(** A rejected login leaves no session behind: the token and the user are
    cleared in the store, the token is removed from [localStorage], [error]
    holds the server's detail (or "Login failed"), [loading] is off and
    the rejection reaches the caller. *)
Theorem login_failure_clears_session credentials e :
  Auth.login_reply be (Auth.sent w) credentials = inl e ->
  let r := Auth.login be credentials w in
  r.1 = inl e /\
  Auth.token (Auth.store r.2) = None /\
  Auth.user (Auth.store r.2) = None /\
  Auth.localStorage r.2 !! "access_token" = None /\
  Auth.error (Auth.store r.2) = Some (Auth.detail_or e "Login failed") /\
  Auth.loading (Auth.store r.2) = false /\
  Auth.isAuthenticated (Auth.store r.2) = false.
Proof.
  intros He. cbv zeta. unfold Auth.login. unfold_auth. cbn -[lookup delete insert]. rewrite He. cbn -[lookup delete insert].
  repeat split; try done. apply lookup_delete_eq.
Qed.

(** An accepted login stores the token both in the store and in
    [localStorage] and returns true in every case.  If the user can be
    fetched the session is authenticated.  If not, the store still holds
    the token, a logout has been started, and once that comes back the
    token is gone from the store and from [localStorage]: the login
    returned true without leaving a session. *)
Theorem login_success_stores_token credentials tok :
  Auth.login_reply be (Auth.sent w) credentials = inr tok ->
  Auth.access_token tok <> "" ->
  let r := Auth.login be credentials w in
  r.1 = inr true /\
  Auth.token (Auth.store r.2) = Some (Auth.access_token tok) /\
  Auth.localStorage r.2 !! "access_token" = Some (Auth.access_token tok) /\
  Auth.loading (Auth.store r.2) = false /\
  (forall u, Auth.me_reply be (Auth.sent w ++ [Auth.POST_login credentials]) = inr u ->
     Auth.user (Auth.store r.2) = Some u /\
     Auth.isAuthenticated (Auth.store r.2) = true /\
     Auth.pending_logouts r.2 = Auth.pending_logouts w) /\
  (forall e, Auth.me_reply be (Auth.sent w ++ [Auth.POST_login credentials]) = inl e ->
     Auth.user (Auth.store r.2) = Auth.user (Auth.store w) /\
     Auth.pending_logouts r.2 = S (Auth.pending_logouts w) /\
     let settled := (Auth.logout_settles r.2).2 in
     Auth.token (Auth.store settled) = None /\
     Auth.localStorage settled !! "access_token" = None /\
     Auth.isAuthenticated (Auth.store settled) = false).
Proof.
  intros Htok Hne. cbv zeta.
  assert (Ht : truthy (Auth.access_token tok) = true).
  { unfold truthy. by apply negb_true_iff, String.eqb_neq. }
  unfold Auth.login, Auth.fetchUser, Auth.logout_started, Auth.logout_settles,
    Auth.isAuthenticated, Auth.has_token.
  unfold_auth. cbn -[lookup delete insert]. rewrite Htok. cbn -[lookup delete insert].
  rewrite Ht.
  destruct (Auth.me_reply be _) as [e|u]; cbn -[lookup delete insert].
  - split; [done|]. split; [done|]. split; [apply lookup_insert_eq|].
    split; [done|]. split; [by intros u [=]|]. intros e' _.
    repeat split; try done. apply lookup_delete_eq.
  - rewrite Ht. split; [done|]. split; [done|]. split; [apply lookup_insert_eq|].
    split; [done|]. split; [|by intros e [=]]. intros u' [= <-]. by repeat split.
Qed.

(** Logging out always ends the session on the client: whether the server
    accepts the request or not, [logout] returns normally with the token
    and the user cleared and the token removed from [localStorage];
    every other key of [localStorage] is left alone. *)
Theorem logout_always_clears :
  let r := Auth.logout be w in
  r.1 = inr tt /\
  Auth.token (Auth.store r.2) = None /\
  Auth.user (Auth.store r.2) = None /\
  Auth.isAuthenticated (Auth.store r.2) = false /\
  Auth.localStorage r.2 !! "access_token" = None /\
  (forall key, key <> "access_token" ->
     Auth.localStorage r.2 !! key = Auth.localStorage w !! key) /\
  Auth.sent r.2 = (Auth.sent w ++ [Auth.POST_logout])%list.
Proof.
  cbv zeta. unfold Auth.logout. unfold_auth. cbn -[lookup delete insert].
  destruct (Auth.logout_reply be (Auth.sent w)) as [e|[]]; cbn -[lookup delete insert];
    repeat split; try done; try apply lookup_delete_eq;
    intros key Hkey; by apply lookup_delete_ne.
Qed.
End AuthStore.

Lemma login_failure_clears_session_witness :
  Auth.localStorage (Auth.login rejecting_auth_backend admin_credentials stale_token_page).2
    !! "access_token" = None /\
  Auth.error
    (Auth.store (Auth.login rejecting_auth_backend admin_credentials stale_token_page).2)
  = Some "Incorrect username or password".
Proof.
  destruct (login_failure_clears_session rejecting_auth_backend stale_token_page
              admin_credentials (Auth.mkFailure (Some "Incorrect username or password"))
              eq_refl) as (_ & _ & _ & Hs & He & _).
  split; [exact Hs|]. rewrite He. reflexivity.
Defined.

Lemma login_success_stores_token_witness :
  Auth.isAuthenticated
    (Auth.store (Auth.login accepting_auth_backend admin_credentials (Auth.created ∅)).2)
  = true.
Proof.
  destruct (login_success_stores_token accepting_auth_backend (Auth.created ∅)
              admin_credentials (Auth.mkToken "tok-1" "bearer" 3600) eq_refl)
    as (_ & _ & _ & _ & Hok & _); [discriminate|].
  by destruct (Hok admin_user eq_refl) as (_ & H & _).
Defined.

(** ** The navigation guard *)

Section Guard.
Import Router.

Lemma decide_target to s target :
  decide to s = Redirect target ->
  target = "/setup" \/ target = "/login" \/ target = "/dashboard".
Proof.
  unfold decide.
  repeat (match goal with
          | |- context [if ?b then _ else _] => destruct b
          end); intros [=]; auto.
Qed.

Lemma decide_setup s :
  decide setup_route s = Proceed <-> Auth.setupCompleted s = false.
Proof.
  unfold decide, setup_route. cbn.
  destruct (Auth.setupCompleted s), (Auth.isAuthenticated s); cbn; by split.
Qed.

Lemma decide_login s :
  decide login_route s = Proceed <->
  Auth.setupCompleted s = true /\ Auth.isAuthenticated s = false.
Proof.
  unfold decide, login_route. cbn.
  destruct (Auth.setupCompleted s), (Auth.isAuthenticated s); cbn; split; try done;
    by intros [? ?].
Qed.

Lemma decide_dashboard s :
  decide dashboard_route s = Proceed <->
  Auth.setupCompleted s = true /\ Auth.isAuthenticated s = true.
Proof.
  unfold decide, dashboard_route. cbn.
  destruct (Auth.setupCompleted s), (Auth.isAuthenticated s); cbn; split; try done;
    by intros [? ?].
Qed.


(** Once the store holds a setup status the guard never asks again: it
    sends nothing and decides from the cached status.  So while the cached
    status says that setup is not completed, a navigation to the
    dashboard, as from the wizard's last step, is sent back to the
    wizard, whatever the server would answer now. *)
Theorem guard_uses_cached_status (be : Auth.Backend) (to : Route) (w : Auth.World) st :
  Auth.setupStatus (Auth.store w) = Some st ->
  beforeEach be to w = (inr (decide to (Auth.store w)), w) /\
  (Auth.is_completed st = false ->
     (beforeEach be dashboard_route w).1 = inr (Redirect "/setup") /\
     settle 1 "/dashboard" (Auth.store w) = Some "/setup").
Proof.
  intros Hst.
  assert (Hsame : forall to', beforeEach be to' w = (inr (decide to' (Auth.store w)), w)).
  { intros to'. unfold beforeEach. unfold_auth. rewrite Hst. cbn. by destruct w. }
  split; [apply Hsame|].
  intros Hc.
  assert (Hsc : Auth.setupCompleted (Auth.store w) = false)
    by (unfold Auth.setupCompleted; by rewrite Hst).
  assert (Hd : decide dashboard_route (Auth.store w) = Redirect "/setup").
  { unfold decide. rewrite Hsc. reflexivity. }
  split.
  - by rewrite Hsame, Hd.
  - cbn [settle]. change (resolve "/dashboard") with dashboard_route. rewrite Hd.
    change (resolve "/setup") with setup_route.
    by rewrite (proj2 (decide_setup (Auth.store w)) Hsc).
Qed.

(** Without a cached status every navigation initializes the store again:
    it asks for the setup status, after asking for the user if a token is
    held, and a status request that fails leaves the store without a
    status, so the next navigation asks once more. *)
Theorem guard_initializes_until_status (be : Auth.Backend) (to : Route) (w : Auth.World) :
  Auth.setupStatus (Auth.store w) = None ->
  let before :=
    (Auth.sent w ++
     (if Auth.has_token (Auth.store w)
      then match Auth.me_reply be (Auth.sent w) with
           | inr _ => [Auth.GET_me]
           | inl _ => [Auth.GET_me; Auth.POST_logout]
           end
      else []))%list in
  Auth.sent (beforeEach be to w).2 = (before ++ [Auth.GET_setup_status])%list /\
  (Auth.setupStatus (Auth.store (beforeEach be to w).2) = None <->
     exists e, Auth.setup_status_reply be before = inl e).
Proof.
  intros Hst. cbv zeta.
  unfold beforeEach, Auth.initialize, Auth.fetchUser, Auth.checkSetupStatus,
    Auth.logout_started.
  unfold_auth. rewrite Hst. cbn.
  destruct (Auth.has_token (Auth.store w)) eqn:Ht; cbn; rewrite ?Ht; cbn.
  - destruct (Auth.me_reply be (Auth.sent w)) as [e|u]; cbn;
      rewrite <- ?app_assoc; cbn;
      destruct (Auth.setup_status_reply be _) as [e'|st'] eqn:Hs; cbn;
      rewrite <- ?app_assoc; cbn; (split; [done|]); rewrite ?Hst;
      split; try done; try (by eexists); by intros [? ?].
  - rewrite app_nil_r.
    destruct (Auth.setup_status_reply be _) as [e'|st'] eqn:Hs; cbn;
      (split; [done|]); rewrite ?Hst; split; try done; try (by eexists); by intros [? ?].
Qed.
End Guard.


Lemma guard_uses_cached_status_witness :
  let w := Auth.mkWorld setup_pending_store ∅ [] 0 in
  (Router.beforeEach accepting_auth_backend Router.dashboard_route w).1
    = inr (Router.Redirect "/setup") /\
  Auth.sent (Router.beforeEach accepting_auth_backend Router.dashboard_route w).2 = [].
Proof.
  cbv zeta.
  destruct (guard_uses_cached_status accepting_auth_backend Router.dashboard_route
              (Auth.mkWorld setup_pending_store ∅ [] 0)
              (Auth.mkSetupStatus false None false) eq_refl) as [Hsame Hback].
  split; [by apply Hback|]. by rewrite Hsame.
Defined.

Lemma guard_initializes_until_status_witness :
  Auth.sent (Router.beforeEach rejecting_auth_backend Router.setup_route stale_token_page).2
  = [Auth.GET_me; Auth.POST_logout; Auth.GET_setup_status].
Proof.
  destruct (guard_initializes_until_status rejecting_auth_backend Router.setup_route
              stale_token_page eq_refl) as [H _].
  rewrite H. reflexivity.
Defined.

(** ** DashboardLayout: the initials in the avatar *)

Lemma upper_ascii_idempotent c : upper_ascii (upper_ascii c) = upper_ascii c.
Proof. destruct c as [[] [] [] [] [] [] [] []]; reflexivity. Qed.

Lemma toUpperCase_idempotent s : toUpperCase (toUpperCase s) = toUpperCase s.
Proof.
  unfold toUpperCase. induction s as [|c r IH]; [done|].
  cbn. by rewrite IH, upper_ascii_idempotent.
Qed.

Lemma map_string_length f s : String.length (map_string f s) = String.length s.
Proof. induction s as [|c r IH]; [done|]. cbn. by rewrite IH. Qed.

Lemma substring_prefix_length n s :
  (n <= String.length s)%nat -> String.length (substring 0 n s) = n.
Proof.
  revert s. induction n as [|n IH]; intros [|c r] Hn; cbn in *; try done; try lia.
  rewrite IH; [done|lia].
Qed.

Lemma truthy_nonempty s : truthy s = true <-> s <> "".
Proof. unfold truthy. rewrite negb_true_iff. apply String.eqb_neq. Qed.

Section Initials.
Import DashboardLayout.

Lemma displayName_nonempty s : displayName s <> "".
Proof.
  unfold displayName, present.
  destruct (Auth.user s) as [u|]; [|done].
  destruct (Auth.display_name u) as [n|].
  - destruct (truthy n) eqn:Hn; [by apply truthy_nonempty|].
    destruct (truthy (Auth.username u)) eqn:Hu; [by apply truthy_nonempty|done].
  - destruct (truthy (Auth.username u)) eqn:Hu; [by apply truthy_nonempty|done].
Qed.

Lemma words_nonempty name p : In p (words name) -> p <> "".
Proof.
  unfold words. intros [_ Hp]%List.filter_In. intros ->. discriminate Hp.
Qed.

Lemma fallback_length name :
  name <> "" ->
  (1 <= String.length (toUpperCase (substring 0 (Nat.min 2 (String.length name)) name))
     <= 2)%nat.
Proof.
  intros Hne. unfold toUpperCase. rewrite map_string_length, substring_prefix_length by lia.
  destruct name as [|c r]; [done|]. cbn [String.length]. lia.
Qed.

End Initials.

